(** * Reception statistics of the AIS tracking tool

    A shallow embedding of [tools/ais-parser.js]: the ingestion and
    aggregation of decoded records, the post-hoc distance filter, the
    distance histogram, the beam-width estimator and the command-line
    front of [main], followed by the properties of these functions.

    Numbers.  A JavaScript number is modelled as an exact rational [Q]
    where the program only adds, subtracts, multiplies, divides by a
    non-zero constant, compares, floors or takes remainders; the rounding
    of IEEE doubles is abstracted.  The special values a division by zero
    produces are kept ([number]).  Counts are natural numbers.  The
    trigonometric functions live on the reals (module [Geodesy]); the
    rational pipeline receives their results through the class
    [Numerics]. *)

From Stdlib Require Import ZArith QArith Qround Qabs Reals Psatz String Ascii.
From stdpp Require Import base option list sorting gmap strings.

Set Default Proof Using "Type".
Set Warnings "-register-all".

(* ================================================================= *)
(** * Part I: the program *)
(* ================================================================= *)

(** ** JavaScript numbers and arrays *)

(** The result of an arithmetic expression that may divide by zero. *)
Inductive number : Type :=
  | Fin (q : Q)
  | NaN
  | PosInf
  | NegInf.

(** [a / b] on finite operands.  The divisors of the program are never
    the negative zero, so a zero divisor is [+0]. *)
Definition num_div (a b : Q) : number :=
  if Qeq_bool b 0 then
    (if Qeq_bool a 0 then NaN
     else if Qle_bool 0 a then PosInf else NegInf)
  else Fin (a / b).

Definition Math_floor (x : number) : number :=
  match x with
  | Fin q => Fin (inject_Z (Qfloor q))
  | other => other
  end.

(** [Math.min(x, y)]: [NaN] as soon as one argument is [NaN]. *)
Definition Math_min (x y : number) : number :=
  match x, y with
  | NaN, _ | _, NaN => NaN
  | NegInf, _ | _, NegInf => NegInf
  | PosInf, other | other, PosInf => other
  | Fin a, Fin b => Fin (if Qle_bool a b then a else b)
  end.

(** [x % m] on finite operands with [m] a non-zero constant: the
    remainder has the sign of the dividend (truncating division). *)
Definition Qtrunc (q : Q) : Z := Z.quot (Qnum q) (Zpos (Qden q)).

Definition js_rem (x m : Q) : Q := (x - m * inject_Z (Qtrunc (x / m)))%Q.

(** A property key that is an array index: a non-negative integer. *)
Definition array_index (k : number) : option nat :=
  match k with
  | Fin q =>
      if Qeq_bool q (inject_Z (Qfloor q)) && (0 <=? Qfloor q)%Z
      then Some (Z.to_nat (Qfloor q)) else None
  | _ => None
  end.

(** [arr[i]] for an integer-valued index expression: [None] is
    [undefined]. *)
Definition array_get {A} (arr : list A) (i : Z) : option A :=
  if (i <? 0)%Z then None else arr !! Z.to_nat i.

(** [Array.prototype.sort(cmp)].  The sort is stable, and for a
    consistent comparator its result is determined by the comparator, so
    a stable insertion sort computes it.  A comparator result of [NaN] is
    read as [+0]. *)
Definition sorts_before {A} (cmp : A -> A -> number) (x y : A) : bool :=
  match cmp x y with
  | Fin q => Qle_bool q 0
  | NaN => true
  | PosInf => false
  | NegInf => true
  end.

Fixpoint insert_by {A} (cmp : A -> A -> number) (x : A) (l : list A) : list A :=
  match l with
  | [] => [x]
  | y :: l' => if sorts_before cmp x y then x :: l else y :: insert_by cmp x l'
  end.

Definition sort_by {A} (cmp : A -> A -> number) (l : list A) : list A :=
  foldr (insert_by cmp) [] l.

(** The comparator [(a, b) => a - b] on numbers. *)
Definition ascending (a b : Q) : number := Fin (a - b).

(** ** Distance distribution: [calculateDistribution] *)

Record BinRange := { range_min : Q; range_max : Q }.

Record Distribution := {
  bins : list nat;
  binRanges : list BinRange;
  dist_min : Q;
  dist_max : Q;
  dist_count : nat
}.

(** [bins[k]++].  A key that is an index below the length increments that
    count.  Any other key leaves the ten counts as they are: for a key
    that is not an index (such as [NaN]) JavaScript creates a named
    property holding [NaN]; an index at or beyond the length would extend
    the array, which [Math.min(_, 9)] rules out on an array of ten. *)
Definition increment (bins : list nat) (k : number) : list nat :=
  match array_index k with
  | Some i => alter S i bins
  | None => bins
  end.

Definition binIndex (dist mn binSize : Q) : number :=
  Math_min (Math_floor (num_div (dist - mn) binSize)) (Fin 9).

(** [distances.sort(...)] sorts the argument array in place: the function
    returns the array as it leaves it together with its result ([None] is
    [undefined]). *)
Definition calculateDistribution (distances : list Q)
  : list Q * option Distribution :=
  match distances with
  | [] => (distances, None)
  | _ :: _ =>
      let sorted := sort_by ascending distances in
      let mn := hd 0%Q sorted in
      let mx := List.last sorted 0%Q in
      let range := (mx - mn)%Q in
      let binSize := (range / 10)%Q in
      let binRanges :=
        map (fun i : nat =>
               {| range_min := mn + inject_Z (Z.of_nat i) * binSize;
                  range_max := mn + (inject_Z (Z.of_nat i) + 1) * binSize |}%Q)
            (seq 0 10) in
      let bins :=
        foldl (fun bins dist => increment bins (binIndex dist mn binSize))
              (replicate 10 0) sorted in
      (sorted,
       Some {| bins := bins; binRanges := binRanges;
               dist_min := mn; dist_max := mx;
               dist_count := length sorted |})
  end.

(** ** Beam width: [calculateBeamWidth]

    The functions of the program that leave rational arithmetic, and the
    host's number parsers.  [calculateDistance] and [calculateBearing]
    are defined on the reals in module [Geodesy]; here they stand for the
    numbers those calls deliver. *)
Class Numerics := {
  Math_cos : Q -> Q;
  Math_sin : Q -> Q;
  Math_atan2 : Q -> Q -> Q;
  Math_sqrt : Q -> Q;
  Math_PI : Q;
  calculateDistance : Q -> Q -> Q -> Q -> Q;
  calculateBearing : Q -> Q -> Q -> Q -> Q;
  Number_parseInt : string -> option Z;      (* [None] is [NaN] *)
  Number_parseFloat : string -> number
}.

Definition Qltb (a b : Q) : bool := negb (Qle_bool b a).

Definition num_add (x y : number) : number :=
  match x, y with
  | NaN, _ | _, NaN => NaN
  | PosInf, NegInf | NegInf, PosInf => NaN
  | PosInf, _ | _, PosInf => PosInf
  | NegInf, _ | _, NegInf => NegInf
  | Fin a, Fin b => Fin (a + b)
  end.

Definition num_opp (x : number) : number :=
  match x with
  | Fin a => Fin (- a)
  | NaN => NaN
  | PosInf => NegInf
  | NegInf => PosInf
  end.

Definition num_sub (x y : number) : number := num_add x (num_opp y).

(** [x / n] for a positive count [n]. *)
Definition num_div_count (x : number) (n : nat) : number :=
  match x with
  | Fin a => num_div a (inject_Z (Z.of_nat n))
  | other => other
  end.

Definition Math_max (x y : number) : number :=
  match x, y with
  | NaN, _ | _, NaN => NaN
  | PosInf, _ | _, PosInf => PosInf
  | NegInf, other | other, NegInf => other
  | Fin a, Fin b => Fin (if Qle_bool a b then b else a)
  end.

(** [Math.min(...l)] and [Math.max(...l)]. *)
Definition Math_min_of (l : list Q) : number :=
  foldr (fun b acc => Math_min (Fin b) acc) PosInf l.
Definition Math_max_of (l : list Q) : number :=
  foldr (fun b acc => Math_max (Fin b) acc) NegInf l.

Record PercentileRange := {
  minBearing : Q;
  maxBearing : Q;
  beamWidth : Q;
  centerBearing : Q;
  percentile : Q
}.

(** One element of [combined].  A distance read past the end of
    [distances] is [undefined], which each of its uses (the comparator
    and the sum) reads as [NaN]. *)
Record Sample := { bearing : Q; distance : number }.

Record MaxDistanceStats := {
  md_count : nat;
  md_minBearing : number;
  md_maxBearing : number;
  md_spread : number;
  md_bearings : list Q;
  md_avgDistance : number
}.

Record BeamWidthStats := {
  totalCount : nat;
  meanBearing : Q;
  concentration : Q;
  percentile68 : option PercentileRange;
  percentile95 : option PercentileRange;
  percentile99 : option PercentileRange;
  maxDistance : MaxDistanceStats
}.

(** The window of [findPercentileRange]: the two fixed positions. *)
Definition startIdx (percentile : Q) (totalCount : nat) : Z :=
  Qfloor (((1 - percentile) / 2) * inject_Z (Z.of_nat totalCount)).
Definition endIdx (percentile : Q) (totalCount : nat) : Z :=
  (Qceiling (((1 + percentile) / 2) * inject_Z (Z.of_nat totalCount)) - 1)%Z.

(** [for (let offset = 0; offset < 360; offset += 10)]. *)
Definition offsets : list Q :=
  map (fun k : nat => inject_Z (10 * Z.of_nat k)) (seq 0 36).

(** [sortedBearings.map((b) => (b + offset) % 360).sort(...)]. *)
Definition adjusted (sortedBearings : list Q) (offset : Q) : list Q :=
  sort_by ascending (map (fun b => js_rem (b + offset) 360) sortedBearings).

(** The state of the search loop. *)
Record Best := { bestRange : Q; bestMin : Q; bestMax : Q }.

(** One iteration of the search loop.  When a window position is not an
    element, [range] is [NaN] and the comparison fails. *)
Definition searchStep (sortedBearings : list Q) (si ei : Z)
    (best : Best) (offset : Q) : Best :=
  let adj := adjusted sortedBearings offset in
  match array_get adj si, array_get adj ei with
  | Some adjMin, Some adjMax =>
      let range := (adjMax - adjMin)%Q in
      if Qltb range (bestRange best) then
        {| bestRange := range;
           bestMin := js_rem (adjMin - offset + 360) 360;
           bestMax := js_rem (adjMax - offset + 360) 360 |}
      else best
  | _, _ => best
  end.

(** [findPercentileRange], closed over [sortedBearings].  [None] stands
    for a result whose bounds are [undefined], which no call of the
    program on a non-empty array produces. *)
Definition findPercentileRange (sortedBearings : list Q) (percentile : Q)
  : option PercentileRange :=
  let totalCount := length sortedBearings in
  let si := startIdx percentile totalCount in
  let ei := endIdx percentile totalCount in
  match array_get sortedBearings si, array_get sortedBearings ei with
  | Some minB0, Some maxB0 =>
      let '(minB, maxB) :=
        if Qltb 180 (maxB0 - minB0) then
          let best :=
            foldl (searchStep sortedBearings si ei)
                  {| bestRange := maxB0 - minB0;
                     bestMin := minB0; bestMax := maxB0 |} offsets in
          (bestMin best, bestMax best)
        else (minB0, maxB0) in
      Some {| minBearing := minB;
              maxBearing := maxB;
              beamWidth :=
                if Qltb minB maxB then maxB - minB else 360 - minB + maxB;
              centerBearing :=
                if Qltb minB maxB then (minB + maxB) / 2
                else js_rem ((minB + maxB + 360) / 2) 360;
              percentile := percentile |}
  | _, _ => None
  end.

(** [bearings.map((b, i) => ({ bearing: b, distance: distances[i] }))]. *)
Definition combine_samples (bearings distances : list Q) : list Sample :=
  imap (fun i b =>
          {| bearing := b;
             distance := from_option Fin NaN (distances !! i) |}) bearings.

Definition byDistanceDescending (a b : Sample) : number :=
  num_sub (distance b) (distance a).

(** [Math.max(1, Math.floor(totalCount * 0.05))]. *)
Definition top5PercentCount (totalCount : nat) : nat :=
  Nat.max 1 (Z.to_nat (Qfloor (inject_Z (Z.of_nat totalCount) * 0.05))).

Section BeamWidth.
Context `{Numerics}.

Definition calculateBeamWidth (bearings distances : list Q)
  : option BeamWidthStats :=
  match bearings with
  | [] => None
  | _ :: _ =>
      let combined := combine_samples bearings distances in
      let sortedBearings := sort_by ascending bearings in
      let totalCount := length sortedBearings in
      let sortedByDistance := sort_by byDistanceDescending combined in
      let count := top5PercentCount totalCount in
      let top5Percent := take count sortedByDistance in
      let maxDistBearings := map bearing top5Percent in
      let maxDistMin := Math_min_of maxDistBearings in
      let maxDistMax := Math_max_of maxDistBearings in
      let n := inject_Z (Z.of_nat totalCount) in
      let meanX :=
        (foldl (fun sum b => sum + Math_cos ((b * Math_PI) / 180)) 0 bearings / n)%Q in
      let meanY :=
        (foldl (fun sum b => sum + Math_sin ((b * Math_PI) / 180)) 0 bearings / n)%Q in
      let meanBearing :=
        js_rem ((Math_atan2 meanY meanX * 180) / Math_PI + 360) 360 in
      Some {| totalCount := totalCount;
              meanBearing := meanBearing;
              concentration := Math_sqrt (meanX * meanX + meanY * meanY);
              percentile68 := findPercentileRange sortedBearings 0.68;
              percentile95 := findPercentileRange sortedBearings 0.95;
              percentile99 := findPercentileRange sortedBearings 0.99;
              maxDistance :=
                {| md_count := count;
                   md_minBearing := maxDistMin;
                   md_maxBearing := maxDistMax;
                   md_spread := num_sub maxDistMax maxDistMin;
                   md_bearings := sort_by ascending maxDistBearings;
                   md_avgDistance :=
                     num_div_count
                       (foldl (fun sum item => num_add sum (distance item))
                              (Fin 0) top5Percent)
                       count |} |}
  end.
End BeamWidth.

(** ** Records, samples and the per-date aggregates *)

Definition MY_LAT : Q := 51.50092998192453.
Definition MY_LON : Q := -0.20671121337722095.
Definition MAX_REASONABLE_DISTANCE : Q := 100.

Record Payload := { mmsi : Z; lat : option Q; lon : option Q }.

(** A decoded line.  [timestamp] is [None] when the object has no string
    there, in which case [getDate] throws. *)
Record Message := {
  topic : string;
  timestamp : option string;
  payload : option Payload
}.

(** A line of the input: [JSON.parse] throws, or yields an object. *)
Inductive Line : Type :=
  | Garbled
  | Json (m : Message).

Record Position := {
  pos_lat : Q;
  pos_lon : Q;
  pos_bearing : Q;
  pos_distance : Q;
  pos_mmsi : Z
}.

Record DebugEntry := {
  dbg_distance : Q;
  dbg_bearing : Q;
  dbg_mmsi : Z;
  dbg_lat : Q;
  dbg_lon : Q;
  dbg_timestamp : option string
}.

Module Daily.
Record t := {
  dayCount : nat;
  nightCount : nat;
  totalCount : nat;
  maxDistance : Q;
  maxDistanceMMSI : option Z
}.

Definition fresh : t :=
  {| dayCount := 0; nightCount := 0; totalCount := 0;
     maxDistance := 0; maxDistanceMMSI := None |}.
End Daily.

Definition getDate (timestamp : string) : string := substring 0 8 timestamp.

(** [Math.floor(bearing / 15) * 15], the key of a sector. *)
Definition bearingSector (bearing : Q) : Z := (Qfloor (bearing / 15) * 15)%Z.

(** [counts[sector] = (counts[sector] || 0) + 1]. *)
Definition countSector (counts : gmap Z nat) (sector : Z) : gmap Z nat :=
  <[sector := default 0 (counts !! sector) + 1]> counts.

(** The arrays and the object that [main] creates and that [processFile]
    fills in place. *)
Record Accumulators := {
  allDistances : list Q;
  bearingCounts : gmap Z nat;
  allBearings : list Q;
  debugDistances : list DebugEntry;
  allPositions : list Position
}.

Definition noAccumulators : Accumulators :=
  {| allDistances := []; bearingCounts := ∅; allBearings := [];
     debugDistances := []; allPositions := [] |}.

(** The state of one [processFile] call. *)
Record FileRun := {
  stats : gmap string Daily.t;
  excludedCount : nat;
  parseErrors : nat;
  acc : Accumulators
}.

(** The update of [stats[date]] for one accepted record. *)
Definition updateDaily (hour : option Z) (distance : Q) (id : Z)
    (stats : gmap string Daily.t) (date : string) : gmap string Daily.t :=
  let stats := match stats !! date with
               | None => <[date := Daily.fresh]> stats
               | Some _ => stats
               end in
  let stats := alter (fun d => {| Daily.dayCount := Daily.dayCount d;
                                  Daily.nightCount := Daily.nightCount d;
                                  Daily.totalCount := S (Daily.totalCount d);
                                  Daily.maxDistance := Daily.maxDistance d;
                                  Daily.maxDistanceMMSI := Daily.maxDistanceMMSI d |})
                     date stats in
  let isDay := match hour with
               | Some h => (8 <=? h)%Z && (h <? 20)%Z
               | None => false
               end in
  let stats :=
    if isDay then
      alter (fun d => {| Daily.dayCount := S (Daily.dayCount d);
                         Daily.nightCount := Daily.nightCount d;
                         Daily.totalCount := Daily.totalCount d;
                         Daily.maxDistance := Daily.maxDistance d;
                         Daily.maxDistanceMMSI := Daily.maxDistanceMMSI d |})
            date stats
    else
      alter (fun d => {| Daily.dayCount := Daily.dayCount d;
                         Daily.nightCount := S (Daily.nightCount d);
                         Daily.totalCount := Daily.totalCount d;
                         Daily.maxDistance := Daily.maxDistance d;
                         Daily.maxDistanceMMSI := Daily.maxDistanceMMSI d |})
            date stats in
  alter (fun d => if Qltb (Daily.maxDistance d) distance then
                    {| Daily.dayCount := Daily.dayCount d;
                       Daily.nightCount := Daily.nightCount d;
                       Daily.totalCount := Daily.totalCount d;
                       Daily.maxDistance := distance;
                       Daily.maxDistanceMMSI := Some id |}
                  else d)
        date stats.

Section Ingestion.
Context `{Numerics}.

Definition getHour (timestamp : string) : option Z :=
  Number_parseInt (substring 8 2 timestamp).

(** The body of the [for await] loop of [processFile]. *)
Definition processLine (debugMode : bool) (excludeMMSIs : gset Z)
    (run : FileRun) (line : Line) : FileRun :=
  match line with
  | Garbled =>
      {| stats := stats run; excludedCount := excludedCount run;
         parseErrors := S (parseErrors run); acc := acc run |}
  | Json data =>
      match payload data with
      | Some payload =>
          if negb (String.eqb (topic data) "ais/data") then run
          else if bool_decide (mmsi payload ∈ excludeMMSIs) then
            {| stats := stats run; excludedCount := S (excludedCount run);
               parseErrors := parseErrors run; acc := acc run |}
          else
            match lat payload, lon payload with
            | Some la, Some lo =>
                if Qltb 90 (Qabs la) || Qltb 180 (Qabs lo) then run
                else
                  let distance := calculateDistance MY_LAT MY_LON la lo in
                  let a := acc run in
                  if Qltb MAX_REASONABLE_DISTANCE distance then
                    if debugMode then
                      {| stats := stats run;
                         excludedCount := excludedCount run;
                         parseErrors := parseErrors run;
                         acc :=
                           {| allDistances := allDistances a;
                              bearingCounts := bearingCounts a;
                              allBearings := allBearings a;
                              debugDistances :=
                                debugDistances a ++
                                [{| dbg_distance := distance;
                                    dbg_bearing :=
                                      calculateBearing MY_LAT MY_LON la lo;
                                    dbg_mmsi := mmsi payload;
                                    dbg_lat := la; dbg_lon := lo;
                                    dbg_timestamp := timestamp data |}];
                              allPositions := allPositions a |} |}
                    else run
                  else
                    let bearing := calculateBearing MY_LAT MY_LON la lo in
                    match timestamp data with
                    | None =>
                        (* [getDate] throws; the [catch] logs the line *)
                        {| stats := stats run;
                           excludedCount := excludedCount run;
                           parseErrors := S (parseErrors run);
                           acc := acc run |}
                    | Some ts =>
                        let date := getDate ts in
                        let hour := getHour ts in
                        {| stats :=
                             updateDaily hour distance (mmsi payload)
                                         (stats run) date;
                           excludedCount := excludedCount run;
                           parseErrors := parseErrors run;
                           acc :=
                             {| allDistances := allDistances a ++ [distance];
                                bearingCounts :=
                                  countSector (bearingCounts a)
                                              (bearingSector bearing);
                                allBearings := allBearings a ++ [bearing];
                                debugDistances := debugDistances a;
                                allPositions :=
                                  allPositions a ++
                                  [{| pos_lat := la; pos_lon := lo;
                                      pos_bearing := bearing;
                                      pos_distance := distance;
                                      pos_mmsi := mmsi payload |}] |} |}
                    end
            | _, _ => run
            end
      | None => run
      end
  end.

(** [processFile]: the lines of the file, folded from fresh [stats]
    into the shared accumulators. *)
Definition processFile (lines : list Line) (a : Accumulators)
    (debugMode : bool) (excludeMMSIs : gset Z) : FileRun :=
  foldl (processLine debugMode excludeMMSIs)
        {| stats := ∅; excludedCount := 0; parseErrors := 0; acc := a |}
        lines.
End Ingestion.

(** ** Directories: [processDirectory] *)

(** What [fs] shows at a path: a file with the lines [readline] yields
    (after [xz -dc] for a name ending in [.xz]), or a directory with its
    entries in [readdirSync] order. *)
Inductive Entry : Type :=
  | File (name : string) (lines : list Line)
  | Directory (name : string) (entries : list Entry).

Definition endsWith (suffix s : string) : bool :=
  (String.length suffix <=? String.length s) &&
  String.eqb (substring (String.length s - String.length suffix)
                        (String.length suffix) s) suffix.

(** The body of [for (const date in fileStats)]. *)
Definition mergeDate (date : string) (fileDay : Daily.t)
    (allStats : gmap string Daily.t) : gmap string Daily.t :=
  match allStats !! date with
  | None => <[date := fileDay]> allStats
  | Some d =>
      let d := {| Daily.dayCount := Daily.dayCount d + Daily.dayCount fileDay;
                  Daily.nightCount := Daily.nightCount d + Daily.nightCount fileDay;
                  Daily.totalCount := Daily.totalCount d + Daily.totalCount fileDay;
                  Daily.maxDistance := Daily.maxDistance d;
                  Daily.maxDistanceMMSI := Daily.maxDistanceMMSI d |} in
      let d := if Qltb (Daily.maxDistance d) (Daily.maxDistance fileDay) then
                 {| Daily.dayCount := Daily.dayCount d;
                    Daily.nightCount := Daily.nightCount d;
                    Daily.totalCount := Daily.totalCount d;
                    Daily.maxDistance := Daily.maxDistance fileDay;
                    Daily.maxDistanceMMSI := Daily.maxDistanceMMSI fileDay |}
               else d in
      <[date := d]> allStats
  end.

(** [for (const date in fileStats)]: each date of [fileStats] is visited
    once and touches its own key of [allStats] only, so the order of the
    visit does not matter. *)
Definition mergeStats (fileStats allStats : gmap string Daily.t)
  : gmap string Daily.t :=
  map_fold mergeDate allStats fileStats.

(** The state of a [processDirectory] call: [allStats] and the shared
    accumulators. *)
Record DirRun := { allStats : gmap string Daily.t; dirAcc : Accumulators }.

Section Directories.
Context `{Numerics}.

(** One directory entry of [processDir]; the inner loop is the
    [for ... of] over the entries of a sub-directory. *)
Fixpoint processEntry (debugMode : bool) (excludeMMSIs : gset Z)
    (e : Entry) (run : DirRun) {struct e} : DirRun :=
  match e with
  | Directory _ entries =>
      (fix processDir (es : list Entry) (run : DirRun) : DirRun :=
         match es with
         | [] => run
         | e' :: es' =>
             processDir es' (processEntry debugMode excludeMMSIs e' run)
         end) entries run
  | File name lines =>
      if endsWith ".json" name || endsWith ".json.xz" name then
        let fileRun := processFile lines (dirAcc run) debugMode excludeMMSIs in
        {| allStats := mergeStats (stats fileRun) (allStats run);
           dirAcc := acc fileRun |}
      else run
  end.

Definition processDir (debugMode : bool) (excludeMMSIs : gset Z)
    (entries : list Entry) (run : DirRun) : DirRun :=
  foldl (fun run e => processEntry debugMode excludeMMSIs e run) run entries.

Definition processDirectory (entries : list Entry)
    (a : Accumulators) (debugMode : bool) (excludeMMSIs : gset Z) : DirRun :=
  processDir debugMode excludeMMSIs entries {| allStats := ∅; dirAcc := a |}.
End Directories.

(** ** The post-filter and the statistics of [main] *)

(** [x > 0], [x >= y] and [x <= y] on numbers: false against [NaN]. *)
Definition num_leb (x y : number) : bool :=
  match x, y with
  | NaN, _ | _, NaN => false
  | NegInf, _ | _, PosInf => true
  | _, NegInf | PosInf, _ => false
  | Fin a, Fin b => Qle_bool a b
  end.

Definition num_ltb (x y : number) : bool :=
  match x, y with
  | NaN, _ | _, NaN => false
  | _, NegInf | PosInf, _ => false
  | NegInf, _ | _, PosInf => true
  | Fin a, Fin b => Qltb a b
  end.

(** [arr.map((d, i) => (keep(d) ? i : -1)).filter((i) => i >= 0)]. *)
Definition indicesWhere (keep : Q -> bool) (arr : list Q) : list Z :=
  List.filter (fun i => (0 <=? i)%Z)
              (imap (fun i d => if keep d then Z.of_nat i else (-1)%Z) arr).

(** [indices.map((i) => arr[i])].  An index that is not an element of
    [arr] would give [undefined]; the three arrays of [main] have one
    length, so that every index taken from the distances is an element of
    each of them. *)
Definition selectAt {A} (arr : list A) (indices : list Z) : list A :=
  omap (array_get arr) indices.

Definition Filtered : Type := list Q * list Q * list Position.

Definition applyBound (keep : Q -> bool) (f : Filtered) : Filtered :=
  let '(filteredDistances, filteredBearings, filteredPositions) := f in
  let indices := indicesWhere keep filteredDistances in
  (selectAt filteredDistances indices,
   selectAt filteredBearings indices,
   selectAt filteredPositions indices).

(** Lines 462-479 of [main]. *)
Definition postFilter (minDistance maxDistance : number)
    (allDistances allBearings : list Q) (allPositions : list Position)
  : Filtered :=
  let f := (allDistances, allBearings, allPositions) in
  let f := if num_ltb (Fin 0) minDistance
           then applyBound (fun d => num_leb minDistance (Fin d)) f else f in
  let f := if num_ltb (Fin 0) maxDistance
           then applyBound (fun d => num_leb (Fin d) maxDistance) f else f in
  f.

(** [filteredBearings.map(sector).forEach(count)] into a fresh object. *)
Definition sectorCounts (bearings : list Q) : gmap Z nat :=
  foldl countSector ∅ (map bearingSector bearings).

(** What the report and the map are produced from. *)
Record Report := {
  rep_stats : gmap string Daily.t;
  rep_filteredDistances : list Q;   (* the array after the distribution ran *)
  rep_filteredBearings : list Q;
  rep_filteredPositions : list Position;
  rep_distribution : option Distribution;
  rep_bearingCounts : gmap Z nat;
  rep_beamStats : option BeamWidthStats
}.

Section Statistics.
Context `{Numerics}.

(** Lines 462-585 of [main], without the formatting of the tables.
    [calculateDistribution] receives the array [filteredDistances] and
    sorts it where it is: the later uses read the array it leaves. *)
Definition statistics (minDistance maxDistance : number)
    (stats : gmap string Daily.t) (a : Accumulators) : Report :=
  let '(filteredDistances, filteredBearings, filteredPositions) :=
    postFilter minDistance maxDistance
               (allDistances a) (allBearings a) (allPositions a) in
  let '(filteredDistances, distribution) :=
    calculateDistribution filteredDistances in
  let bearingCounts :=
    if num_ltb (Fin 0) minDistance && (0 <? length filteredBearings)
    then sectorCounts filteredBearings
    else bearingCounts a in
  let beamStats := calculateBeamWidth filteredBearings filteredDistances in
  {| rep_stats := stats;
     rep_filteredDistances := filteredDistances;
     rep_filteredBearings := filteredBearings;
     rep_filteredPositions := filteredPositions;
     rep_distribution := distribution;
     rep_bearingCounts := bearingCounts;
     rep_beamStats := beamStats |}.
End Statistics.

(** ** The summary and the bearing table of [main] *)

Definition compassPoints : list string :=
  [ "N"; "NNE"; "NE"; "ENE"; "E"; "ESE"; "SE"; "SSE";
    "S"; "SSW"; "SW"; "WSW"; "W"; "WNW"; "NW"; "NNW" ].

(** [Math.round]: the nearest integer, a half going up. *)
Definition Math_round (x : Q) : Z := Qfloor (x + 1 / 2).

(** [getCompassDirection]; [None] is [undefined], the element at a
    negative index. *)
Definition getCompassDirection (bearing : Q) : option string :=
  array_get compassPoints (Z.rem (Math_round (bearing / 22.5)) 16).







(** The comparator [(a, b) => a - b] on the sector keys. *)
Definition ascendingKeys (a b : Z) : number := Fin (inject_Z (a - b)).

(** Lines 564-567 of [main]: the sectors with a positive count,
    ascending.  The keys of [bearingCounts] are the sectors written as
    decimal integers, which [Number.parseInt] reads back. *)
Definition tableBearings (bearingCounts : gmap Z nat) : list Z :=
  List.filter (fun b => 0 <? default 0 (bearingCounts !! b))
              (sort_by ascendingKeys (map_to_list bearingCounts).*1).

(** [bearings.reduce((sum, b) => sum + bearingCounts[b], 0)]. *)
Definition totalBearingCount (bearingCounts : gmap Z nat) : nat :=
  foldl (fun sum b => sum + default 0 (bearingCounts !! b)) 0
        (tableBearings bearingCounts).

(** A line of the bearing table, without the percentage. *)
Record BearingRow := {
  row_bearing : Z;
  row_endBearing : Z;
  row_direction : option string;
  row_count : nat
}.

(** Lines 569-580 of [main]: no line is printed for an empty table. *)
Definition bearingTable (bearingCounts : gmap Z nat) : list BearingRow :=
  map (fun bearing =>
         {| row_bearing := bearing;
            row_endBearing := bearing + 15;
            row_direction := getCompassDirection (inject_Z bearing + 7.5);
            row_count := default 0 (bearingCounts !! bearing) |})
      (tableBearings bearingCounts).

(** ** The command line: [main] *)

(** [s.split(sep)] for a one-character separator. *)
Fixpoint split (sep : ascii) (s : string) : list string :=
  match s with
  | EmptyString => [EmptyString]
  | String c s' =>
      if Ascii.eqb c sep then EmptyString :: split sep s'
      else match split sep s' with
           | [] => [String c EmptyString]
           | piece :: pieces => String c piece :: pieces
           end
  end.

Definition startsWith (pre s : string) : bool := String.prefix pre s.

Fixpoint includes (c : ascii) (s : string) : bool :=
  match s with
  | EmptyString => false
  | String c' s' => Ascii.eqb c' c || includes c s'
  end.

(** [arg.split('=')[1]]; [None] is [undefined]. *)
Definition afterEquals (arg : string) : option string := split "=" arg !! 1.

Definition usage : list string :=
  [ "Usage: node ais-parser.js <file.json or directory> [options]";
    "Options:";
    "  --debug                    Show debug information";
    "  --display[=port]           Start map server (default port: 9001)";
    "  --apikey=KEY               Google Maps API key (required for --display)";
    "  --min-distance=nm          Only analyze signals beyond this distance";
    "  --max-distance=nm          Only analyze signals before this distance";
    "  --exclude=mmsi1,mmsi2,...  Exclude specific MMSIs";
    "
Examples:";
    "  ./ais-parser.js data.json --display --apikey=YOUR_KEY";
    "  ./ais-parser.js data.json --display --apikey=YOUR_KEY --min-distance=5";
    "  ./ais-parser.js data.json --exclude=2320752,235054667" ].

Definition apikeyError : list string :=
  [ "Error: --apikey is required when using --display";
    "Usage: ./ais-parser.js data.json --display --apikey=YOUR_GOOGLE_MAPS_KEY" ].

(** An exception of the host: [fs.statSync] on a path that does not
    exist. *)
Inductive Exception : Type :=
  | ENOENT (path : string).

(** What the process writes and starts.  [Excluding] is the line that
    lists the members of [new Set(mmsiList)].  The progress lines of the
    ingestion and the layout of the tables are left out: [Statistics]
    stands for the whole printed report. *)
Inductive Output : Type :=
  | Stdout (line : string)
  | Stderr (line : string)
  | StderrException (e : Exception)
  | Excluding (mmsiList : list (option Z))
  | Statistics (r : Report)
  | MapServer (port : Z) (positions : list Position)
              (beamStats : option BeamWidthStats).

(** How the promise of [main] ends. *)
Inductive Completion : Type :=
  | Exited (code : Z)          (* [process.exit(code)] *)
  | Rejected (e : Exception)   (* an exception left [main] *)
  | Fulfilled.

Record Process := { console : list Output; exitStatus : Z }.

Definition filteredArgs (args : list string) : list string :=
  List.filter (fun arg =>
                 negb (String.eqb arg "--debug")
                 && negb (startsWith "--display" arg)
                 && negb (startsWith "--min-distance" arg)
                 && negb (startsWith "--exclude" arg)
                 && negb (startsWith "--apikey" arg)) args.

Section Main.
Context `{Numerics}.

(** [displayPort]; [None] is [undefined] or [NaN]. *)
Definition displayPortOf (args : list string) : option Z :=
  match List.find (startsWith "--display") args with
  | Some displayArg =>
      if String.eqb displayArg "--display" then Some 9001%Z
      else if includes "=" displayArg
           then afterEquals displayArg ≫= Number_parseInt
           else None
  | None => None
  end.

Definition apiKeyOf (args : list string) : option string :=
  List.find (startsWith "--apikey=") args ≫= afterEquals.

(** [Number.parseFloat(arg.split('=')[1])], or the default [0]. *)
Definition distanceOption (flag : string) (args : list string) : number :=
  match List.find (startsWith flag) args with
  | Some arg => from_option Number_parseFloat NaN (afterEquals arg)
  | None => Fin 0
  end.

(** [mmsiList], the numbers of [--exclude=]; [None] is [undefined]
    when the flag is absent. *)
Definition mmsiListOf (args : list string) : option (list (option Z)) :=
  ids ← List.find (startsWith "--exclude=") args ≫= afterEquals;
  Some (Number_parseInt <$> split "," ids).

(** [excludeMMSIs]; a [NaN] member matches no record. *)
Definition excludeOf (args : list string) : gset Z :=
  match mmsiListOf args with
  | Some mmsiList => list_to_set (omap (fun m => m) mmsiList)
  | None => ∅
  end.

(** What [main] has printed when it reaches the usage check. *)
Definition announced (args : list string) : list Output :=
  match mmsiListOf args with
  | Some mmsiList => [Excluding mmsiList]
  | None => []
  end.

Definition truthyPort (displayPort : option Z) : bool :=
  match displayPort with
  | Some port => negb (port =? 0)%Z
  | None => false
  end.

Definition truthyString (s : option string) : bool :=
  match s with
  | Some s => negb (String.eqb s "")
  | None => false
  end.

(** [main], on the arguments and the file system: [fs path] is what
    [fs.statSync(path)] finds, [None] when nothing is there. *)
Definition main (args : list string) (fs : string -> option Entry)
  : list Output * Completion :=
  let debugMode := bool_decide ("--debug" ∈ args) in
  let displayPort := displayPortOf args in
  let apiKey := apiKeyOf args in
  let minDistance := distanceOption "--min-distance=" args in
  let maxDistance := distanceOption "--max-distance=" args in
  let excludeMMSIs := excludeOf args in
  match filteredArgs args with
  | [] => (announced args ++ map Stdout usage, Exited 1)
  | inputPath :: _ =>
      if truthyPort displayPort && negb (truthyString apiKey) then
        (announced args ++ map Stderr apikeyError, Exited 1)
      else
        match fs inputPath with
        | None => (announced args, Rejected (ENOENT inputPath))
        | Some entry =>
            let '(stats, a) :=
              match entry with
              | Directory _ entries =>
                  let result :=
                    processDirectory entries noAccumulators
                                     debugMode excludeMMSIs in
                  (allStats result, dirAcc result)
              | File _ lines =>
                  let run :=
                    processFile lines noAccumulators debugMode excludeMMSIs in
                  (stats run, acc run)
              end in
            let report := statistics minDistance maxDistance stats a in
            (announced args ++ [Statistics report] ++
             match displayPort with
             | Some port =>
                 if truthyPort displayPort then
                   [MapServer port (rep_filteredPositions report)
                              (rep_beamStats report)]
                 else []
             | None => []
             end,
             Fulfilled)
        end
  end.

(** [main().catch(console.error)]: a rejection is printed on the error
    stream and the process then ends as after a normal return. *)
Definition program (args : list string) (fs : string -> option Entry)
  : Process :=
  match main args fs with
  | (out, Exited code) => {| console := out; exitStatus := code |}
  | (out, Rejected e) =>
      {| console := out ++ [StderrException e]; exitStatus := 0 |}
  | (out, Fulfilled) => {| console := out; exitStatus := 0 |}
  end.
End Main.

(** ** Geodesy on the reals: [calculateBearing], [calculateDistance]

    The two functions as written, with the real functions for
    [Math.sin], [Math.cos] and [Math.atan2].  [None] is [NaN]: the one
    operation of the two bodies that can produce it is [Math.sqrt] below
    zero.  The reals have one zero; the zero arguments that reach
    [Math.atan2] in the program are sums and products of non-negative
    terms or a difference [t - t], all [+0] in the program, where
    [Math.atan2(0, 0)] is [0].  The rounding of doubles is not part of
    this semantics: it is exact at the station itself, and it can push
    the haversine term above [1] only close to the antipode of the first
    point. *)
Module Geodesy.
Local Open Scope R_scope.

Definition toRad (deg : R) : R := deg * (PI / 180).

Definition Math_sqrt (x : R) : option R :=
  if Rle_dec 0 x then Some (sqrt x) else None.

Definition Math_atan2 (y x : R) : R :=
  if Rlt_dec 0 x then atan (y / x)
  else if Rlt_dec x 0 then
    (if Rle_dec 0 y then atan (y / x) + PI else atan (y / x) - PI)
  else if Rlt_dec 0 y then PI / 2
  else if Rlt_dec y 0 then - (PI / 2)
  else 0.

(** [x % m]: the remainder of the truncating division. *)
Definition Rtrunc (x : R) : Z :=
  if Rle_dec 0 x then Int_part x else (- Int_part (- x))%Z.

Definition js_rem (x m : R) : R := x - m * IZR (Rtrunc (x / m)).

Definition calculateBearing (lat1 lon1 lat2 lon2 : R) : R :=
  let dLon := toRad (lon2 - lon1) in
  let y := sin dLon * cos (toRad lat2) in
  let x := cos (toRad lat1) * sin (toRad lat2)
           - sin (toRad lat1) * cos (toRad lat2) * cos dLon in
  js_rem ((Math_atan2 y x * 180) / PI + 360) 360.

Definition calculateDistance (lat1 lon1 lat2 lon2 : R) : option R :=
  let dLat := toRad (lat2 - lat1) in
  let dLon := toRad (lon2 - lon1) in
  let a := sin (dLat / 2) * sin (dLat / 2)
           + cos (toRad lat1) * cos (toRad lat2)
             * sin (dLon / 2) * sin (dLon / 2) in
  sa ← Math_sqrt a;
  sb ← Math_sqrt (1 - a);
  let c := 2 * Math_atan2 sa sb in
  Some ((6371 * c) / 1.852).

End Geodesy.

(* ================================================================= *)
(** * Part II: the vocabulary of the properties *)
(* ================================================================= *)

(** ** Orders, positions and rows *)

(** The order the comparator induces. *)
Definition before {A} (cmp : A -> A -> number) (x y : A) : Prop :=
  sorts_before cmp x y = true.

(** The positions of [l], counted from [from], whose element passes. *)
Fixpoint positionsWhere {A} (keep : A -> bool) (l : list A) (from : nat)
  : list nat :=
  match l with
  | [] => []
  | x :: l' =>
      if keep x then from :: positionsWhere keep l' (S from)
      else positionsWhere keep l' (S from)
  end.

(** A sample of the three aligned arrays. *)
Definition Row : Type := Q * Q * Position.

Definition rowDistance (r : Row) : Q := r.1.1.

Definition rowBearing (r : Row) : Q := r.1.2.

Definition rowPosition (r : Row) : Position := r.2.

Definition rows (distances bearings : list Q) (positions : list Position)
  : list Row := zip (zip distances bearings) positions.

(** The selection rule of the specification: a bound that is not
    positive is disabled. *)
Definition retained (minDistance maxDistance d : Q) : Prop :=
  (minDistance <= 0 \/ minDistance <= d)%Q
  /\ (maxDistance <= 0 \/ d <= maxDistance)%Q.

Definition retainedb (minDistance maxDistance d : Q) : bool :=
  (Qle_bool minDistance 0 || Qle_bool minDistance d)
  && (Qle_bool maxDistance 0 || Qle_bool d maxDistance).

(** A [(bearing, distance)] pair of two aligned arrays, as a sample. *)
Definition sampleOf (p : Q * Q) : Sample :=
  {| bearing := p.1; distance := Fin p.2 |}.

Definition pairDescending (p q : Q * Q) : number :=
  byDistanceDescending (sampleOf p) (sampleOf q).

(** ** The rotation search *)





(** ** Aggregates and runs *)

(** The three global arrays have one length. *)
Definition aligned (a : Accumulators) : Prop :=
  length (allBearings a) = length (allDistances a)
  /\ length (allPositions a) = length (allDistances a).

Definition balanced (d : Daily.t) : Prop :=
  Daily.dayCount d + Daily.nightCount d = Daily.totalCount d.

Definition statsBalanced (stats : gmap string Daily.t) : Prop :=
  map_Forall (fun _ d => balanced d) stats.


(** ** Ingestion *)

(** A line that [processFile] drops because its id is excluded. *)
Definition isExcluded (excludeMMSIs : gset Z) (line : Line) : bool :=
  match line with
  | Garbled => false
  | Json data =>
      match payload data with
      | Some p =>
          String.eqb (topic data) "ais/data"
          && bool_decide (mmsi p ∈ excludeMMSIs)
      | None => false
      end
  end.



(** The part of the accumulators the statistics are computed from. *)
Definition sameSamples (a1 a2 : Accumulators) : Prop :=
  allDistances a1 = allDistances a2
  /\ bearingCounts a1 = bearingCounts a2
  /\ allBearings a1 = allBearings a2
  /\ allPositions a1 = allPositions a2.

(** Two runs of [processFile] that differ at most in the debug
    collection. *)
Definition sameRun (r1 r2 : FileRun) : Prop :=
  stats r1 = stats r2
  /\ excludedCount r1 = excludedCount r2
  /\ parseErrors r1 = parseErrors r2
  /\ sameSamples (acc r1) (acc r2).

(** Two runs of [processFile] that differ at most in the count of
    excluded records. *)
Definition sameKept (r1 r2 : FileRun) : Prop :=
  stats r1 = stats r2 /\ parseErrors r1 = parseErrors r2 /\ acc r1 = acc r2.

(** A debug entry as [processFile] collects it: beyond the sanity
    ceiling. *)
Definition beyondCeiling `{Numerics} (e : DebugEntry) : Prop :=
  (MAX_REASONABLE_DISTANCE < dbg_distance e)%Q
  /\ dbg_distance e = calculateDistance MY_LAT MY_LON (dbg_lat e) (dbg_lon e).

(** The aggregate of a date after one more record of that date. *)
Definition dailyAfter (hour : option Z) (distance : Q) (id : Z) (d : Daily.t)
  : Daily.t :=
  let isDay := match hour with
               | Some h => (8 <=? h)%Z && (h <? 20)%Z
               | None => false
               end in
  let farther := Qltb (Daily.maxDistance d) distance in
  {| Daily.dayCount := if isDay then S (Daily.dayCount d) else Daily.dayCount d;
     Daily.nightCount :=
       if isDay then Daily.nightCount d else S (Daily.nightCount d);
     Daily.totalCount := S (Daily.totalCount d);
     Daily.maxDistance := if farther then distance else Daily.maxDistance d;
     Daily.maxDistanceMMSI :=
       if farther then Some id else Daily.maxDistanceMMSI d |}.


(** The maximum of a date and its id come from a recorded position, or
    are still the initial [0] and [undefined]. *)
Definition maxRecorded (positions : list Position) (d : Daily.t) : Prop :=
  (Daily.maxDistanceMMSI d = None /\ Daily.maxDistance d = 0%Q)
  \/ (exists p, p ∈ positions
                /\ Daily.maxDistance d = pos_distance p
                /\ Daily.maxDistanceMMSI d = Some (pos_mmsi p)
                /\ (0 < pos_distance p)%Q).

(** ** Directories and the post-filter *)

(** The record files of a directory entry, depth first: the lines of
    every file whose name ends in [.json] or [.json.xz]. *)
Fixpoint jsonFiles (e : Entry) : list (list Line) :=
  match e with
  | File name lines =>
      if endsWith ".json" name || endsWith ".json.xz" name then [lines] else []
  | Directory _ entries =>
      (fix inDir (es : list Entry) : list (list Line) :=
         match es with
         | [] => []
         | e' :: es' => jsonFiles e' ++ inDir es'
         end) entries
  end.

Definition jsonFilesOf (entries : list Entry) : list (list Line) :=
  flat_map jsonFiles entries.

(** One record file folded into the state of a directory run. *)
Definition mergeFile `{Numerics} (debugMode : bool) (excludeMMSIs : gset Z)
    (run : DirRun) (lines : list Line) : DirRun :=
  let fileRun := processFile lines (dirAcc run) debugMode excludeMMSIs in
  {| allStats := mergeStats (stats fileRun) (allStats run);
     dirAcc := acc fileRun |}.

(** The test of the two passes of the post-filter on one distance. *)
Definition passes (minDistance maxDistance : number) (d : Q) : bool :=
  (negb (num_ltb (Fin 0) minDistance) || num_leb minDistance (Fin d))
  && (negb (num_ltb (Fin 0) maxDistance) || num_leb (Fin d) maxDistance).

(** The three arrays of a list of positions, and a position as a row. *)
Definition rowOf (p : Position) : Row := (pos_distance p, pos_bearing p, p).

Definition arraysOf (positions : list Position) : Filtered :=
  (pos_distance <$> positions, pos_bearing <$> positions, positions).

(** The bin key of a distance in a distribution. *)
Definition binKey (d : Distribution) (x : Q) : number :=
  binIndex x (dist_min d) ((dist_max d - dist_min d) / 10).

(** ** The summary and the bearing table *)

(** The number of bearings of a sector. *)
Definition inSector (sector : Z) (bearings : list Q) : nat :=
  length (List.filter (fun b => bool_decide (bearingSector b = sector))
                      bearings).



(** ** Data of the examples *)

(** The decimal digits a string starts with. *)
Definition digitOf (c : ascii) : option Z :=
  let n := nat_of_ascii c in
  if (48 <=? n) && (n <=? 57) then Some (Z.of_nat (n - 48)) else None.

Fixpoint leadingDigits (s : string) (acc : option Z) : option Z :=
  match s with
  | EmptyString => acc
  | String c s' =>
      match digitOf c with
      | Some d => leadingDigits s' (Some (10 * default 0%Z acc + d)%Z)
      | None => acc
      end
  end.

(** An instance of [Numerics] for closed examples.  Its number parsers
    read decimal digits; its other functions are stand-ins, on whose
    values the examples do not depend. *)
Definition exampleNumerics : Numerics :=
  {| Math_cos := fun _ => 1%Q;
     Math_sin := fun _ => 0%Q;
     Math_atan2 := fun _ _ => 0%Q;
     Math_sqrt := fun x => x;
     Math_PI := 3.141592653589793%Q;
     calculateDistance :=
       fun lat1 lon1 lat2 lon2 =>
         (60 * (Qabs (lat2 - lat1) + Qabs (lon2 - lon1)))%Q;
     calculateBearing := fun _ _ _ _ => 0%Q;
     Number_parseInt := fun s => leadingDigits s None;
     Number_parseFloat :=
       fun s => from_option (fun z => Fin (inject_Z z)) NaN (leadingDigits s None) |}.

Definition samplePosition (bearing distance : Q) : Position :=
  {| pos_lat := 0; pos_lon := 0; pos_bearing := bearing;
     pos_distance := distance; pos_mmsi := 0 |}.

(** Three accepted records at distances 3, 1, 2 and bearings 10, 20, 30,
    as [processFile] leaves them in the accumulators. *)
Definition threeSamples : Accumulators :=
  {| allDistances := [3; 1; 2]%Q;
     bearingCounts := sectorCounts [10; 20; 30]%Q;
     allBearings := [10; 20; 30]%Q;
     debugDistances := [];
     allPositions := [samplePosition 10 3; samplePosition 20 1;
                      samplePosition 30 2] |}.

(** One accepted record at distance 5 and bearing 30. *)
Definition oneNearSample : Accumulators :=
  {| allDistances := [5%Q];
     bearingCounts := sectorCounts [30%Q];
     allBearings := [30%Q];
     debugDistances := [];
     allPositions := [samplePosition 30 5] |}.

Definition twentyOne : list Q :=
  (fun i : nat => inject_Z (Z.of_nat i)) <$> seq 1 21.

Definition recordAt (ts : string) (id : Z) (la lo : Q) : Line :=
  Json {| topic := "ais/data"; timestamp := Some ts;
          payload := Some {| mmsi := id; lat := Some la; lon := Some lo |} |}.

Definition emptyFs : string -> option Entry := fun _ => None.

(* ================================================================= *)
(** * Part III: properties *)
(* ================================================================= *)

(** ** Geodesy *)

Section GeodesyFacts.
Import Geodesy.
Local Open Scope R_scope.





End GeodesyFacts.

Section GeodesyDistance.
Import Geodesy.
Local Open Scope R_scope.












End GeodesyDistance.

(** ** Sorting *)

Section Sorting.
Context {A : Type} (cmp : A -> A -> number).

Lemma insert_by_Permutation (x : A) (l : list A) :
  insert_by cmp x l ≡ₚ x :: l.
Proof.
  induction l as [|y l IH]; simpl; [done|].
  destruct (sorts_before cmp x y); [done|].
  rewrite IH. apply Permutation_swap.
Qed.

Lemma sort_by_Permutation (l : list A) : sort_by cmp l ≡ₚ l.
Proof.
  induction l as [|x l IH]; simpl; [done|].
  rewrite insert_by_Permutation. by rewrite IH.
Qed.

Lemma sort_by_length (l : list A) : length (sort_by cmp l) = length l.
Proof. by rewrite sort_by_Permutation. Qed.

(** The order the comparator induces is [before].  On elements among which the comparator is a total preorder, the
    result is sorted. *)
Section Sorted.
Context (P : A -> Prop).
Hypothesis before_total : forall x y, P x -> P y -> before cmp x y \/ before cmp y x.
Hypothesis before_trans :
  forall x y z, P x -> P y -> P z -> before cmp x y -> before cmp y z -> before cmp x z.

Lemma insert_by_sorted (x : A) (l : list A) :
  P x -> Forall P l ->
  StronglySorted (before cmp) l -> StronglySorted (before cmp) (insert_by cmp x l).
Proof using before_total before_trans.
  intros Hx HP Hs. induction Hs as [|y l Hs IH Hy]; simpl.
  { repeat constructor. }
  apply Forall_cons in HP as [HPy HPl].
  destruct (sorts_before cmp x y) eqn:Hxy.
  - constructor; [by constructor|].
    constructor; [done|].
    eapply Forall_impl.
    { apply Forall_and. split; [exact Hy | exact HPl]. }
    intros z [Hyz HPz]. by eapply (before_trans x y z).
  - constructor; [by apply IH|].
    rewrite insert_by_Permutation. constructor; [|done].
    destruct (before_total x y Hx HPy) as [Hb|Hb]; [|done].
    unfold before in Hb. congruence.
Qed.

Lemma sort_by_sorted (l : list A) :
  Forall P l -> StronglySorted (before cmp) (sort_by cmp l).
Proof using before_total before_trans.
  induction 1 as [|x l Hx HP IH]; simpl; [constructor|].
  apply insert_by_sorted; [done| |done].
  by rewrite sort_by_Permutation.
Qed.
End Sorted.
End Sorting.

Lemma StronglySorted_weaken {A} (R1 R2 : A -> A -> Prop) (l : list A) :
  (forall x y, R1 x y -> R2 x y) -> StronglySorted R1 l -> StronglySorted R2 l.
Proof.
  intros HR. induction 1 as [|x l Hs IH Hx]; constructor; [done|].
  eapply Forall_impl; [exact Hx|]. intros y. apply HR.
Qed.

Lemma before_ascending (a b : Q) : before ascending a b <-> (a <= b)%Q.
Proof.
  unfold before, sorts_before, ascending.
  rewrite Qle_bool_iff. split; intros Hq; lra.
Qed.

Lemma sort_ascending_sorted (l : list Q) :
  StronglySorted Qle (sort_by ascending l).
Proof.
  eapply (StronglySorted_weaken (before ascending)).
  { intros x y. apply before_ascending. }
  apply (sort_by_sorted ascending (fun _ => True)).
  - intros x y _ _. rewrite !before_ascending.
    destruct (Qlt_le_dec x y) as [Hl|Hl]; [left; lra | right; lra].
  - intros x y z _ _ _. rewrite !before_ascending. intros; lra.
  - by apply Forall_true.
Qed.

(** ** The post-filter *)

Section Positions.
Context {A : Type} (keep : A -> bool).

Lemma elem_of_positionsWhere (l : list A) (from i : nat) :
  i ∈ positionsWhere keep l from <->
  from <= i /\ exists x, l !! (i - from) = Some x /\ keep x = true.
Proof.
  revert from. induction l as [|x l IH]; intros from; simpl.
  { rewrite elem_of_nil. split; [done|]. by intros (_ & y & ? & _). }
  assert (i ∈ positionsWhere keep l (S from) <->
          S from <= i /\ exists y, (x :: l) !! (i - from) = Some y
                                   /\ keep y = true) as Htail.
  { rewrite IH. split; intros (Hle & y & Hy & Hk); (split; [done|]);
      exists y; (split; [|done]).
    - by replace (i - from) with (S (i - S from)) by lia.
    - by replace (i - from) with (S (i - S from)) in Hy by lia. }
  destruct (keep x) eqn:Hx.
  - rewrite elem_of_cons, Htail. split.
    + intros [->|(Hle & y & Hy & Hk)].
      * split; [done|]. exists x. by rewrite Nat.sub_diag.
      * split; [lia|]. by exists y.
    + intros (Hle & y & Hy & Hk).
      destruct (decide (i = from)) as [->|Hne]; [by left|right].
      split; [lia|]. by exists y.
  - rewrite Htail. split.
    + intros (Hle & y & Hy & Hk). split; [lia|]. by exists y.
    + intros (Hle & y & Hy & Hk).
      destruct (decide (i = from)) as [->|Hne].
      * rewrite Nat.sub_diag in Hy. simpl in Hy. congruence.
      * split; [lia|]. by exists y.
Qed.

Lemma positionsWhere_increasing (l : list A) (from : nat) :
  StronglySorted lt (positionsWhere keep l from).
Proof.
  revert from. induction l as [|x l IH]; intros from; simpl; [constructor|].
  destruct (keep x); [|apply IH].
  constructor; [apply IH|].
  apply Forall_forall. intros i Hi.
  apply elem_of_positionsWhere in Hi. lia.
Qed.

(** Reading any projection of [l] at the retained positions gives the
    projection of the retained elements: every position is an
    element. *)
Lemma lookup_positionsWhere {B} (g : A -> B) (pre l : list A) :
  (fun i => (g <$> (pre ++ l)) !! i) <$> positionsWhere keep l (length pre)
  = Some <$> (g <$> List.filter keep l).
Proof.
  revert pre. induction l as [|x l IH]; intros pre; simpl; [done|].
  specialize (IH (pre ++ [x])).
  rewrite <- app_assoc, length_app, Nat.add_1_r in IH. simpl in IH.
  destruct (keep x); [|done].
  rewrite !fmap_cons, IH. f_equal.
  rewrite list_lookup_fmap, lookup_app_r by done.
  by rewrite Nat.sub_diag.
Qed.

Lemma indicesWhere_positions (l : list A) (g : A -> Q) (k : Q -> bool) :
  (forall x, keep x = k (g x)) ->
  indicesWhere k (g <$> l) = Z.of_nat <$> positionsWhere keep l 0.
Proof.
  intros Hk. unfold indicesWhere.
  enough (forall from,
    List.filter (fun i => (0 <=? i)%Z)
      (imap (fun i d => if k d then Z.of_nat (from + i) else (-1)%Z) (g <$> l))
    = Z.of_nat <$> positionsWhere keep l from) as Hgen.
  { exact (Hgen 0). }
  induction l as [|x l IH]; intros from; [done|].
  rewrite fmap_cons. cbn [imap positionsWhere]. rewrite <- Hk.
  assert (imap ((fun i d => if k d then Z.of_nat (from + i) else (-1)%Z) ∘ S)
               (g <$> l)
          = imap (fun i d => if k d then Z.of_nat (S from + i) else (-1)%Z)
                 (g <$> l)) as ->.
  { apply imap_ext. intros i d _. simpl.
    by replace (from + S i) with (S (from + i)) by lia. }
  destruct (keep x); cbn [List.filter].
  - rewrite Nat.add_0_r.
    rewrite (proj2 (Z.leb_le 0 (Z.of_nat from))) by lia.
    by rewrite IH.
  - change (0 <=? -1)%Z with false. cbv iota. by rewrite IH.
Qed.
End Positions.

Lemma selectAt_positions {A} (arr : list A) (positions : list nat) (xs : list A) :
  (fun i => arr !! i) <$> positions = Some <$> xs ->
  selectAt arr (Z.of_nat <$> positions) = xs.
Proof.
  unfold selectAt. revert xs.
  induction positions as [|i positions IH]; intros [|x xs] Heq;
    simpl in *; try done.
  injection Heq as Hi Hrest. unfold array_get at 1.
  rewrite (proj2 (Z.ltb_ge (Z.of_nat i) 0)) by lia.
  rewrite Nat2Z.id, Hi. simpl. f_equal. by apply IH.
Qed.

Lemma filter_filter_bool {A} (p q : A -> bool) (l : list A) :
  List.filter q (List.filter p l) = List.filter (fun x => p x && q x) l.
Proof.
  induction l as [|x l IH]; simpl; [done|].
  destruct (p x); simpl; [|done]. destruct (q x); by rewrite IH.
Qed.

Lemma rows_projections distances bearings positions :
  length bearings = length distances ->
  length positions = length distances ->
  rowDistance <$> rows distances bearings positions = distances
  /\ rowBearing <$> rows distances bearings positions = bearings
  /\ rowPosition <$> rows distances bearings positions = positions.
Proof.
  revert bearings positions.
  induction distances as [|d distances IH]; intros [|b bearings] [|p positions];
    intros Hb Hp; try done.
  simpl in Hb, Hp.
  destruct (IH bearings positions) as (Hd & Hbs & Hps); [lia..|].
  unfold rows in *. cbn [zip_with]. rewrite !fmap_cons.
  by rewrite Hd, Hbs, Hps.
Qed.

Lemma applyBound_rows (keep : Q -> bool) (l : list Row) :
  applyBound keep (rowDistance <$> l, rowBearing <$> l, rowPosition <$> l)
  = let kept := List.filter (fun r => keep (rowDistance r)) l in
    (rowDistance <$> kept, rowBearing <$> kept, rowPosition <$> kept).
Proof.
  unfold applyBound. cbv zeta.
  rewrite (indicesWhere_positions (fun r => keep (rowDistance r)) l rowDistance keep)
    by done.
  pose proof (fun B (g : Row -> B) =>
    lookup_positionsWhere (fun r => keep (rowDistance r)) g [] l) as Hsel.
  simpl in Hsel.
  by rewrite !(selectAt_positions _ _ _ (Hsel _ _)).
Qed.

Lemma retainedb_spec minDistance maxDistance d :
  retainedb minDistance maxDistance d = true <-> retained minDistance maxDistance d.
Proof.
  unfold retainedb, retained.
  by rewrite andb_true_iff, !orb_true_iff, !Qle_bool_iff.
Qed.

Lemma filter_all {A} (l : list A) : List.filter (fun _ => true) l = l.
Proof. induction l as [|x l IH]; simpl; by rewrite ?IH. Qed.

(** On aligned arrays the two passes of [main] are one selection of
    rows. *)
Lemma postFilter_rows (minDistance maxDistance : Q) (l : list Row) :
  postFilter (Fin minDistance) (Fin maxDistance)
             (rowDistance <$> l) (rowBearing <$> l) (rowPosition <$> l)
  = let kept :=
      List.filter (fun r => retainedb minDistance maxDistance (rowDistance r)) l in
    (rowDistance <$> kept, rowBearing <$> kept, rowPosition <$> kept).
Proof.
  unfold postFilter, retainedb. cbn [num_ltb num_leb]. unfold Qltb.
  cbv zeta.
  destruct (Qle_bool minDistance 0); cbn [negb orb].
  - destruct (Qle_bool maxDistance 0); cbn [negb orb andb].
    + by rewrite filter_all.
    + by rewrite applyBound_rows.
  - rewrite applyBound_rows. cbv zeta.
    destruct (Qle_bool maxDistance 0); cbn [negb orb].
    + f_equal; [f_equal|]; f_equal; apply List.filter_ext;
        intros r; by rewrite andb_true_r.
    + rewrite applyBound_rows. cbv zeta. by rewrite filter_filter_bool.
Qed.

(** Whatever the bounds, the post-filter keeps the three arrays at one
    length. *)
Lemma postFilter_aligned (minDistance maxDistance : number)
    (distances bearings : list Q) (positions : list Position) :
  length bearings = length distances ->
  length positions = length distances ->
  let '(filteredDistances, filteredBearings, filteredPositions) :=
    postFilter minDistance maxDistance distances bearings positions in
  length filteredBearings = length filteredDistances
  /\ length filteredPositions = length filteredDistances.
Proof.
  intros Hb Hp.
  destruct (rows_projections distances bearings positions Hb Hp)
    as (Hd & Hbs & Hps).
  clear Hb Hp. generalize dependent (rows distances bearings positions).
  intros l <- <- <-. unfold postFilter. cbv zeta.
  destruct (num_ltb (Fin 0) minDistance), (num_ltb (Fin 0) maxDistance);
    rewrite ?applyBound_rows; cbv zeta; rewrite ?applyBound_rows;
    cbv beta iota zeta; by rewrite !length_fmap.
Qed.

(** C7.  On index-aligned arrays and finite bounds, the post-filter
    keeps exactly the indices whose distance satisfies
    [(minDistance <= 0 \/ distance >= minDistance) /\
     (maxDistance <= 0 \/ distance <= maxDistance)], in increasing order,
    and reads the three arrays at those same indices; with bounds 10 and
    50 the distances [5, 15, 30, 60] become [15, 30], the other two
    arrays being read at indices 1 and 2. *)
Theorem postFilter_keeps_bounded_indices
    (minDistance maxDistance : Q)
    (distances bearings : list Q) (positions : list Position)
    (Hbearings : length bearings = length distances)
    (Hpositions : length positions = length distances) :
  (exists indices : list nat,
      StronglySorted lt indices
      /\ (forall i, i ∈ indices <->
                    exists d, distances !! i = Some d
                              /\ retained minDistance maxDistance d)
      /\ let '(filteredDistances, filteredBearings, filteredPositions) :=
           postFilter (Fin minDistance) (Fin maxDistance)
                      distances bearings positions in
         Some <$> filteredDistances = (fun i => distances !! i) <$> indices
         /\ Some <$> filteredBearings = (fun i => bearings !! i) <$> indices
         /\ Some <$> filteredPositions = (fun i => positions !! i) <$> indices)
  /\ (forall b0 b1 b2 b3 p0 p1 p2 p3,
        postFilter (Fin 10) (Fin 50) [5; 15; 30; 60]%Q
                   [b0; b1; b2; b3] [p0; p1; p2; p3]
        = ([15; 30]%Q, [b1; b2], [p1; p2])).
Proof.
  split; [|reflexivity].
  destruct (rows_projections distances bearings positions Hbearings Hpositions)
    as (Hd & Hb & Hp).
  clear Hbearings Hpositions.
  generalize dependent (rows distances bearings positions).
  intros l <- <- <-.
  set (keep := fun r : Row => retainedb minDistance maxDistance (rowDistance r)).
  exists (positionsWhere keep l 0). split; [|split].
  - apply positionsWhere_increasing.
  - intros i. rewrite elem_of_positionsWhere, Nat.sub_0_r.
    rewrite list_lookup_fmap. split.
    + intros (_ & r & Hr & Hk). exists (rowDistance r). rewrite Hr.
      split; [done|]. by apply retainedb_spec.
    + intros (d & Hl & Hk). split; [lia|].
      destruct (l !! i) as [r|]; [|done]. injection Hl as <-.
      exists r. split; [done|]. by apply retainedb_spec.
  - rewrite postFilter_rows. cbv zeta. fold keep.
    pose proof (fun B (g : Row -> B) => lookup_positionsWhere keep g [] l) as Hsel.
    simpl in Hsel. by rewrite !Hsel.
Qed.

Lemma postFilter_keeps_bounded_indices_witness :
  exists indices : list nat,
    StronglySorted lt indices
    /\ (forall i, i ∈ indices <->
                  exists d, [5; 15; 30; 60]%Q !! i = Some d /\ retained 10 50 d)
    /\ let '(filteredDistances, filteredBearings, filteredPositions) :=
         postFilter (Fin 10) (Fin 50) [5; 15; 30; 60]%Q [90; 91; 92; 93]%Q
                    (replicate 4 {| pos_lat := 0; pos_lon := 0; pos_bearing := 0;
                                    pos_distance := 0; pos_mmsi := 0 |}) in
       Some <$> filteredDistances
       = (fun i => [5; 15; 30; 60]%Q !! i) <$> indices
       /\ Some <$> filteredBearings
          = (fun i => [90; 91; 92; 93]%Q !! i) <$> indices
       /\ Some <$> filteredPositions
          = (fun i => replicate 4 {| pos_lat := 0; pos_lon := 0;
                                     pos_bearing := 0; pos_distance := 0;
                                     pos_mmsi := 0 |} !! i) <$> indices.
Proof.
  exact (proj1 (postFilter_keeps_bounded_indices 10 50
                  [5; 15; 30; 60]%Q [90; 91; 92; 93]%Q
                  (replicate 4 {| pos_lat := 0; pos_lon := 0; pos_bearing := 0;
                                  pos_distance := 0; pos_mmsi := 0 |})
                  eq_refl eq_refl)).
Defined.

(** ** The distance distribution *)

Lemma length_increment (bins : list nat) (k : number) :
  length (increment bins k) = length bins.
Proof. unfold increment. destruct (array_index k); by rewrite ?length_alter. Qed.

Lemma sum_list_alter_S (bins : list nat) (i : nat) :
  i < length bins -> sum_list (alter S i bins) = S (sum_list bins).
Proof.
  revert i. induction bins as [|b bins IH]; intros [|i] Hi;
    simpl in Hi; try lia.
  - reflexivity.
  - change (alter S (S i) (b :: bins)) with (b :: alter S i bins).
    change (sum_list (b :: alter S i bins))
      with (b + sum_list (alter S i bins)).
    rewrite IH by lia. simpl. lia.
Qed.

(** With a positive bin size every distance at or above the minimum has
    an index key among 0..9. *)
Lemma binIndex_in_range (dist mn binSize : Q) :
  (0 < binSize)%Q -> (mn <= dist)%Q ->
  exists i, array_index (binIndex dist mn binSize) = Some i /\ i < 10.
Proof.
  intros Hpos Hge. unfold binIndex, num_div.
  destruct (Qeq_bool binSize 0) eqn:Hz.
  { apply Qeq_bool_iff in Hz. lra. }
  cbn [Math_floor Math_min].
  set (q := ((dist - mn) / binSize)%Q).
  assert (0 <= q)%Q as Hq.
  { unfold q. apply Qle_shift_div_l; [done|]. lra. }
  assert (0 <= Qfloor q)%Z as Hf.
  { change 0%Z with (Qfloor 0). by apply Qfloor_resp_le. }
  destruct (Qle_bool (inject_Z (Qfloor q)) 9) eqn:Hle; cbn [array_index].
  - apply Qle_bool_iff in Hle. rewrite Qfloor_Z.
    rewrite (proj2 (Qeq_bool_iff _ _)) by reflexivity.
    rewrite (proj2 (Z.leb_le _ _)) by done. cbn [andb].
    eexists; split; [done|].
    change 9%Q with (inject_Z 9) in Hle. rewrite <- Zle_Qle in Hle. lia.
  - exists 9. split; [reflexivity|lia].
Qed.

(** Whatever the operands, a bin key that is an index is below ten:
    [bins[k]++] never extends the array. *)
Lemma binIndex_below_ten (dist mn binSize : Q) (i : nat) :
  array_index (binIndex dist mn binSize) = Some i -> i < 10.
Proof.
  unfold binIndex.
  destruct (Math_floor (num_div (dist - mn) binSize)) as [q| | |];
    cbn [Math_min array_index]; try done.
  - destruct (Qle_bool q 9) eqn:Hle.
    + apply Qle_bool_iff in Hle.
      destruct (Qeq_bool q (inject_Z (Qfloor q)) && (0 <=? Qfloor q)%Z) eqn:Hint;
        [|done].
      intros [= <-]. apply andb_true_iff in Hint as [_ Hpos].
      apply Z.leb_le in Hpos.
      assert (Qfloor q <= Qfloor 9)%Z as Hf by (by apply Qfloor_resp_le).
      change (Qfloor 9) with 9%Z in Hf. lia.
    + vm_compute. intros [= <-]. lia.
  - vm_compute. intros [= <-]. lia.
Qed.

Example distribution_spread :
  bins <$> (calculateDistribution [0; 10; 4; 5; 9.99]%Q).2
  = Some [1; 0; 0; 0; 1; 1; 0; 0; 0; 2].
Proof. vm_compute. reflexivity. Qed.

Lemma sorted_hd_least (l : list Q) (x : Q) :
  StronglySorted Qle l -> x ∈ l -> (hd 0%Q l <= x)%Q.
Proof.
  intros Hs Hx. destruct Hs as [|y l Hs Hy]; [by apply elem_of_nil in Hx|].
  simpl. apply elem_of_cons in Hx as [->|Hx]; [lra|].
  by eapply Forall_forall in Hy.
Qed.

Lemma bins_fold_sum (mn binSize : Q) (l : list Q) (bins : list nat) :
  (0 < binSize)%Q -> Forall (fun d => mn <= d)%Q l -> length bins = 10 ->
  sum_list (foldl (fun bins dist => increment bins (binIndex dist mn binSize))
                  bins l)
  = sum_list bins + length l.
Proof.
  intros Hpos Hl. revert bins.
  induction Hl as [|d l Hd Hl IH]; intros bins Hlen; simpl; [lia|].
  destruct (binIndex_in_range d mn binSize Hpos Hd) as (i & Hi & Hlt).
  rewrite IH by (by rewrite length_increment).
  unfold increment. rewrite Hi, sum_list_alter_S by lia. lia.
Qed.

(** X15.  Where the distances are not all equal, every distance is
    counted in one of the ten bins: the bins add up to the number of
    distances, which is the count reported. *)
Lemma bins_sum_when_spread (distances : list Q) (d : Distribution) :
  (calculateDistribution distances).2 = Some d ->
  (dist_min d < dist_max d)%Q ->
  sum_list (bins d) = length distances /\ dist_count d = length distances.
Proof.
  destruct distances as [|x distances]; [done|].
  unfold calculateDistribution. cbv zeta. cbn [snd].
  set (sorted := sort_by ascending (x :: distances)).
  intros [= <-]. cbn [bins dist_min dist_max dist_count]. intros Hlt.
  split; [|apply sort_by_length].
  rewrite bins_fold_sum.
  - unfold sorted. by rewrite sort_by_length.
  - apply Qlt_shift_div_l; lra.
  - apply Forall_forall. intros y Hy.
    by apply sorted_hd_least; [apply sort_ascending_sorted|].
  - done.
Qed.

(** C2.  On distances [5, 5, 5] the distribution reports
    [min = max = 5] and a count of 3, but no value is counted in bin 9:
    [binSize] is [0], the bin key [(5 - 5) / 0] is [NaN], which
    [Math.min(_, 9)] does not clamp, and the ten bins stay at [0]. *)
Theorem degenerate_distribution_counts_nothing :
  exists d,
    (calculateDistribution [5; 5; 5]%Q).2 = Some d
    /\ dist_min d = 5%Q /\ dist_max d = 5%Q /\ dist_count d = 3
    /\ binIndex 5 (dist_min d) ((dist_max d - dist_min d) / 10) = NaN
    /\ bins d = [0; 0; 0; 0; 0; 0; 0; 0; 0; 0]
    /\ bins d !! 9 <> Some 3.
Proof. eexists. repeat split; [reflexivity..|]. discriminate. Qed.

(** C5.  On distances [5, 5, 5] the ten bin counts add up to [0], not to
    the length [3] of the sequence; the same holds for every sequence
    of one element. *)
Theorem degenerate_distribution_loses_mass :
  (exists d, (calculateDistribution [5; 5; 5]%Q).2 = Some d
             /\ sum_list (bins d) = 0 /\ length [5; 5; 5]%Q = 3)
  /\ (forall x : Q, exists d, (calculateDistribution [x]).2 = Some d
                              /\ sum_list (bins d) = 0).
Proof.
  split; [eexists; repeat split; reflexivity|].
  intros x. eexists. split; [reflexivity|].
  cbn [bins sort_by foldr insert_by hd List.last foldl].
  unfold binIndex, num_div.
  assert (Qeq_bool ((x - x) / 10) 0 = true) as ->.
  { apply Qeq_bool_iff. field. }
  assert (Qeq_bool (x - x) 0 = true) as ->.
  { apply Qeq_bool_iff. ring. }
  reflexivity.
Qed.

(** ** The statistics of [main] *)

(** C1.  With no bound active, after the distribution is computed the
    array of filtered distances holds [1, 2, 3] instead of [3, 1, 2],
    while the bearings are still [10, 20, 30]: the top-5% analysis pairs
    distance 3 with bearing 30, although the sample at distance 3 has
    bearing 10. *)
Theorem distribution_sorts_distances_in_place `{Numerics} :
  let r := statistics (Fin 0) (Fin 0) ∅ threeSamples in
  (calculateDistribution [3; 1; 2]%Q).1 = [1; 2; 3]%Q
  /\ rep_filteredDistances r = [1; 2; 3]%Q
  /\ rep_filteredBearings r = [10; 20; 30]%Q
  /\ pos_distance <$> rep_filteredPositions r = [3; 1; 2]%Q
  /\ (md_bearings ∘ maxDistance) <$> rep_beamStats r = Some [30%Q]
  /\ (md_avgDistance ∘ maxDistance) <$> rep_beamStats r = Some (Fin 3).
Proof. repeat split; reflexivity. Qed.

Section SectorCounts.
Context `{Numerics}.

Lemma statistics_bearingCounts minDistance maxDistance stats a :
  let r := statistics minDistance maxDistance stats a in
  rep_bearingCounts r
  = if num_ltb (Fin 0) minDistance && (0 <? length (rep_filteredBearings r))
    then sectorCounts (rep_filteredBearings r)
    else bearingCounts a.
Proof.
  unfold statistics.
  destruct (postFilter _ _ _ _ _) as [[fd fb] fp].
  by destruct (calculateDistribution fd) as [fd' distribution].
Qed.

(** C8, as the program has it.  For a run with [minDistance > 0]: when
    the filtered bearing sequence is not empty the sector counts
    reported are those recomputed from it; when the filter leaves no
    sample the counts of the unfiltered aggregation are reported. *)
Theorem sector_counts_recomputed_when_nonempty
    (minDistance maxDistance : number)
    (stats : gmap string Daily.t) (a : Accumulators)
    (Hmin : num_ltb (Fin 0) minDistance = true) :
  let r := statistics minDistance maxDistance stats a in
  (rep_filteredBearings r <> [] ->
   rep_bearingCounts r = sectorCounts (rep_filteredBearings r))
  /\ (rep_filteredBearings r = [] -> rep_bearingCounts r = bearingCounts a).
Proof.
  intros r. unfold r. rewrite statistics_bearingCounts. cbv zeta.
  rewrite Hmin. cbn [andb]. fold r.
  destruct (rep_filteredBearings r) as [|b bs]; simpl; split; done.
Qed.
End SectorCounts.

(** With [minDistance = 10] the one sample at distance 5 is filtered
    out, and the sector counts reported are still those of the
    unfiltered aggregation, not those of the (empty) filtered bearings. *)
Lemma sector_counts_reused_when_filter_empties :
  let r := @statistics exampleNumerics (Fin 10) (Fin 0) ∅ oneNearSample in
  num_ltb (Fin 0) (Fin 10) = true
  /\ rep_filteredBearings r = []
  /\ rep_bearingCounts r !! 30%Z = Some 1
  /\ sectorCounts (rep_filteredBearings r) !! 30%Z = None
  /\ rep_bearingCounts r <> sectorCounts (rep_filteredBearings r).
Proof.
  repeat split; try reflexivity.
  intros Heq. apply (f_equal (fun m => m !! 30%Z)) in Heq.
  vm_compute in Heq. discriminate.
Qed.

Lemma sector_counts_recomputed_when_nonempty_witness :
  let r := @statistics exampleNumerics (Fin 2) (Fin 0) ∅ threeSamples in
  (rep_filteredBearings r <> [] ->
   rep_bearingCounts r = sectorCounts (rep_filteredBearings r))
  /\ (rep_filteredBearings r = [] ->
      rep_bearingCounts r = bearingCounts threeSamples).
Proof.
  exact (@sector_counts_recomputed_when_nonempty exampleNumerics
           (Fin 2) (Fin 0) ∅ threeSamples eq_refl).
Defined.

(** ** The top-5%-by-distance analysis *)

Lemma combine_samples_zip (bearings distances : list Q) :
  length distances = length bearings ->
  combine_samples bearings distances = sampleOf <$> zip bearings distances.
Proof.
  unfold combine_samples. revert distances.
  induction bearings as [|b bearings IH]; intros [|d distances] Hlen;
    try done.
  cbn [imap zip_with]. rewrite fmap_cons. f_equal.
  rewrite <- IH by (simpl in Hlen; lia).
  by apply imap_ext.
Qed.

Lemma insert_by_fmap {A B} (f : A -> B) (cmp : B -> B -> number) x l :
  insert_by cmp (f x) (f <$> l)
  = f <$> insert_by (fun a b => cmp (f a) (f b)) x l.
Proof.
  induction l as [|y l IH]; [done|].
  rewrite fmap_cons. cbn [insert_by]. unfold sorts_before.
  destruct (cmp (f x) (f y)) as [q| | |];
    try destruct (Qle_bool q 0); by rewrite ?fmap_cons, ?IH.
Qed.

Lemma sort_by_fmap {A B} (f : A -> B) (cmp : B -> B -> number) l :
  sort_by cmp (f <$> l) = f <$> sort_by (fun a b => cmp (f a) (f b)) l.
Proof.
  induction l as [|x l IH]; [done|].
  rewrite fmap_cons. cbn [sort_by foldr]. fold (sort_by cmp (f <$> l)).
  by rewrite IH, insert_by_fmap.
Qed.

Lemma before_pairDescending (p q : Q * Q) :
  before pairDescending p q <-> (q.2 <= p.2)%Q.
Proof.
  unfold before, sorts_before, pairDescending, byDistanceDescending. simpl.
  rewrite Qle_bool_iff. split; intros; lra.
Qed.

Lemma sort_pairDescending_sorted (l : list (Q * Q)) :
  StronglySorted (fun p q => q.2 <= p.2)%Q (sort_by pairDescending l).
Proof.
  eapply (StronglySorted_weaken (before pairDescending)).
  { intros p q. apply before_pairDescending. }
  apply (sort_by_sorted pairDescending (fun _ => True)).
  - intros p q _ _. rewrite !before_pairDescending.
    destruct (Qlt_le_dec p.2 q.2); [right; lra | left; lra].
  - intros p q r _ _ _. rewrite !before_pairDescending. intros; lra.
  - by apply Forall_true.
Qed.

(** [Math.floor(n * 0.05)] is the integer quotient by 20. *)
Lemma top5PercentCount_div (n : nat) : top5PercentCount n = Nat.max 1 (n / 20).
Proof.
  unfold top5PercentCount. f_equal.
  unfold Qfloor. cbn [Qmult Qnum Qden inject_Z].
  change (Z.pos (1 * 100)) with (20 * 5)%Z.
  rewrite Z.div_mul_cancel_r by lia.
  change 20%Z with (Z.of_nat 20). rewrite <- Nat2Z.inj_div.
  apply Nat2Z.id.
Qed.

Lemma sum_distances (top : list (Q * Q)) (acc : Q) :
  foldl (fun sum item => num_add sum (distance item)) (Fin acc)
        (sampleOf <$> top)
  = Fin (foldl Qplus acc (top.*2)).
Proof.
  revert acc. induction top as [|p top IH]; intros acc; [done|].
  rewrite !fmap_cons. cbn [foldl]. cbn [sampleOf distance num_add].
  apply IH.
Qed.

Lemma Math_min_of_least (l : list Q) :
  l <> [] ->
  exists lo, Math_min_of l = Fin lo /\ lo ∈ l /\ Forall (fun b => lo <= b)%Q l.
Proof.
  induction l as [|b l IH]; [done|]. intros _.
  destruct l as [|b' l].
  { exists b. split; [done|]. split; [by left|].
    constructor; [lra|constructor]. }
  destruct IH as (lo & Hlo & Hin & Hall); [done|].
  change (Math_min_of (b :: b' :: l))
    with (Math_min (Fin b) (Math_min_of (b' :: l))).
  rewrite Hlo. cbn [Math_min].
  destruct (Qle_bool b lo) eqn:Hle.
  - apply Qle_bool_iff in Hle. exists b.
    split; [done|]. split; [by left|].
    constructor; [lra|]. eapply Forall_impl; [exact Hall|].
    intros c Hc. simpl in Hc. lra.
  - assert (lo < b)%Q as Hlt.
    { apply Qnot_le_lt. intros Hc. apply Qle_bool_iff in Hc. congruence. }
    exists lo. split; [done|]. split; [by right|].
    constructor; [lra|done].
Qed.

Lemma Math_max_of_greatest (l : list Q) :
  l <> [] ->
  exists hi, Math_max_of l = Fin hi /\ hi ∈ l /\ Forall (fun b => b <= hi)%Q l.
Proof.
  induction l as [|b l IH]; [done|]. intros _.
  destruct l as [|b' l].
  { exists b. split; [done|]. split; [by left|].
    constructor; [lra|constructor]. }
  destruct IH as (hi & Hhi & Hin & Hall); [done|].
  change (Math_max_of (b :: b' :: l))
    with (Math_max (Fin b) (Math_max_of (b' :: l))).
  rewrite Hhi. cbn [Math_max].
  destruct (Qle_bool b hi) eqn:Hle.
  - apply Qle_bool_iff in Hle. exists hi.
    split; [done|]. split; [by right|].
    constructor; [lra|done].
  - assert (hi < b)%Q as Hlt.
    { apply Qnot_le_lt. intros Hc. apply Qle_bool_iff in Hc. congruence. }
    exists b. split; [done|]. split; [by left|].
    constructor; [lra|]. eapply Forall_impl; [exact Hall|].
    intros c Hc. simpl in Hc. lra.
Qed.

Section Top5.
Context `{Numerics}.

(** C3, as the program has it.  For [N >= 1] aligned samples the
    top-5% analysis takes exactly [max(1, floor(0.05 * N))] of the
    [(bearing, distance)] pairs, none of them nearer than a pair left
    out, and its count, average distance, bearing list, bearing bounds
    and spread are those of exactly that subset. *)
Theorem top5_takes_floor_of_five_percent
    (bearings distances : list Q)
    (Hnonempty : bearings <> [])
    (Haligned : length distances = length bearings) :
  exists (beam : BeamWidthStats) (top rest : list (Q * Q)) (lo hi : Q),
    calculateBeamWidth bearings distances = Some beam
    /\ zip bearings distances ≡ₚ top ++ rest
    /\ length top = Nat.max 1 (length bearings / 20)
    /\ (forall s t, s ∈ top -> t ∈ rest -> (t.2 <= s.2)%Q)
    /\ md_count (maxDistance beam) = length top
    /\ md_avgDistance (maxDistance beam)
       = Fin (foldl Qplus 0%Q (top.*2) / inject_Z (Z.of_nat (length top)))
    /\ md_bearings (maxDistance beam) = sort_by ascending (top.*1)
    /\ md_minBearing (maxDistance beam) = Fin lo
    /\ md_maxBearing (maxDistance beam) = Fin hi
    /\ md_spread (maxDistance beam) = Fin (hi - lo)
    /\ lo ∈ top.*1 /\ hi ∈ top.*1
    /\ Forall (fun b => lo <= b <= hi)%Q (top.*1).
Proof.
  destruct bearings as [|b0 bearings']; [done|].
  set (bearings := b0 :: bearings') in *.
  set (sorted := sort_by pairDescending (zip bearings distances)).
  set (k := Nat.max 1 (length bearings / 20)).
  assert (length (zip bearings distances) = length bearings) as Hzip.
  { rewrite length_zip_with. lia. }
  assert (0 < length bearings) as Hpos by (simpl; lia).
  assert (k <= length bearings) as Hk.
  { unfold k. pose proof (Nat.Div0.div_le_upper_bound (length bearings) 20
                            (length bearings)) as Hd.
    assert (length bearings / 20 <= length bearings) by (apply Hd; lia).
    lia. }
  assert (length (take k sorted) = k) as Htake.
  { rewrite length_take. unfold sorted. rewrite sort_by_length. lia. }
  assert (bearing <$> (sampleOf <$> take k sorted) = (take k sorted).*1) as Hbear.
  { rewrite <- list_fmap_compose. by apply list_fmap_ext. }
  assert ((take k sorted).*1 <> []) as Hne.
  { intros Hnil. apply (f_equal length) in Hnil.
    rewrite length_fmap, Htake in Hnil. simpl in Hnil. unfold k in Hnil. lia. }
  destruct (Math_min_of_least _ Hne) as (lo & Hlo & Hlo_in & Hlo_le).
  destruct (Math_max_of_greatest _ Hne) as (hi & Hhi & Hhi_in & Hhi_ge).
  eexists _, (take k sorted), (drop k sorted), lo, hi.
  split.
  { unfold calculateBeamWidth. fold bearings. unfold bearings at 1.
    reflexivity. }
  cbn [maxDistance md_count md_avgDistance md_bearings md_minBearing
       md_maxBearing md_spread].
  rewrite sort_by_length, top5PercentCount_div. fold k.
  rewrite combine_samples_zip by done.
  rewrite (sort_by_fmap sampleOf byDistanceDescending).
  change (sort_by _ (zip bearings distances)) with sorted.
  rewrite <- fmap_take.
  change (map bearing (sampleOf <$> take k sorted))
    with (bearing <$> (sampleOf <$> take k sorted)).
  rewrite Hbear, sum_distances, Hlo, Hhi, Htake.
  split; [by rewrite take_drop; unfold sorted; rewrite sort_by_Permutation|].
  split; [done|].
  split.
  { intros s t Hs Ht.
    eapply (StronglySorted_app_1_elem_of (fun p q => q.2 <= p.2)%Q);
      [|exact Hs|exact Ht].
    rewrite take_drop. apply sort_pairDescending_sorted. }
  split; [done|].
  split.
  { unfold num_div_count, num_div.
    assert (Qeq_bool (inject_Z (Z.of_nat k)) 0 = false) as ->; [|done].
    apply not_true_is_false. intros Hz. apply Qeq_bool_iff in Hz.
    pose proof (Nat.le_max_l 1 (length bearings / 20)) as Hk1.
    fold k in Hk1. unfold Qeq in Hz. cbn [Qnum Qden inject_Z] in Hz. lia. }
  repeat split; try done.
  apply Forall_and. split; done.
Qed.
End Top5.

(** With 21 samples the analysis takes one sample, although
    [max(1, ceil(0.05 * 21))] is 2. *)
Lemma top5_of_21_takes_one :
  length twentyOne = 21
  /\ (md_count ∘ maxDistance)
       <$> @calculateBeamWidth exampleNumerics twentyOne twentyOne = Some 1
  /\ (md_bearings ∘ maxDistance)
       <$> @calculateBeamWidth exampleNumerics twentyOne twentyOne = Some [21%Q]
  /\ Nat.max 1 (Z.to_nat (Qceiling (0.05 * 21))) = 2.
Proof. repeat split; vm_compute; reflexivity. Qed.

Lemma top5_takes_floor_of_five_percent_witness :
  exists (beam : BeamWidthStats) (top rest : list (Q * Q)) (lo hi : Q),
    @calculateBeamWidth exampleNumerics [10; 20; 30]%Q [3; 1; 2]%Q = Some beam
    /\ zip [10; 20; 30]%Q [3; 1; 2]%Q ≡ₚ top ++ rest
    /\ length top = Nat.max 1 (length [10; 20; 30]%Q / 20)
    /\ (forall s t, s ∈ top -> t ∈ rest -> (t.2 <= s.2)%Q)
    /\ md_count (maxDistance beam) = length top
    /\ md_avgDistance (maxDistance beam)
       = Fin (foldl Qplus 0%Q (top.*2) / inject_Z (Z.of_nat (length top)))
    /\ md_bearings (maxDistance beam) = sort_by ascending (top.*1)
    /\ md_minBearing (maxDistance beam) = Fin lo
    /\ md_maxBearing (maxDistance beam) = Fin hi
    /\ md_spread (maxDistance beam) = Fin (hi - lo)
    /\ lo ∈ top.*1 /\ hi ∈ top.*1
    /\ Forall (fun b => lo <= b <= hi)%Q (top.*1).
Proof.
  apply (@top5_takes_floor_of_five_percent exampleNumerics
           [10; 20; 30]%Q [3; 1; 2]%Q); [discriminate | reflexivity].
Defined.

(** ** The percentile window and its rotation search *)

Lemma Qltb_lt (a b : Q) : Qltb a b = true <-> (a < b)%Q.
Proof.
  unfold Qltb. rewrite negb_true_iff. split.
  - intros Hf. apply Qnot_le_lt. intros Hle.
    apply Qle_bool_iff in Hle. congruence.
  - intros Hlt. apply not_true_is_false. intros Hle.
    apply Qle_bool_iff in Hle. lra.
Qed.

Lemma Qltb_ge (a b : Q) : Qltb a b = false <-> (b <= a)%Q.
Proof.
  unfold Qltb. rewrite negb_false_iff. apply Qle_bool_iff.
Qed.

Lemma array_get_Some {A} (l : list A) (i : Z) :
  (0 <= i < Z.of_nat (length l))%Z -> exists x, array_get l i = Some x.
Proof.
  intros Hi. unfold array_get.
  rewrite (proj2 (Z.ltb_ge i 0)) by lia.
  apply lookup_lt_is_Some_2. lia.
Qed.

(** Both window positions are elements of a non-empty array. *)
Lemma window_in_range (p : Q) (n : nat) :
  (0 < p < 1)%Q -> 0 < n ->
  (0 <= startIdx p n < Z.of_nat n)%Z /\ (0 <= endIdx p n < Z.of_nat n)%Z.
Proof.
  intros [Hp0 Hp1] Hn. unfold startIdx, endIdx.
  set (N := inject_Z (Z.of_nat n)).
  assert (1 <= N)%Q as HN.
  { unfold N. change 1%Q with (inject_Z 1). rewrite <- Zle_Qle. lia. }
  assert (0 < (1 - p) / 2 < 1)%Q as [Ha0 Ha1].
  { split; [apply Qlt_shift_div_l | apply Qlt_shift_div_r]; lra. }
  assert (0 < (1 + p) / 2 < 1)%Q as [Hb0 Hb1].
  { split; [apply Qlt_shift_div_l | apply Qlt_shift_div_r]; lra. }
  set (a := ((1 - p) / 2)%Q) in *. set (b := ((1 + p) / 2)%Q) in *.
  assert (0 <= a * N /\ a * N < N)%Q as [Hx0 Hx1] by (split; nra).
  assert (0 < b * N /\ b * N <= N)%Q as [Hy0 Hy1] by (split; nra).
  split; split.
  - change 0%Z with (Qfloor 0). by apply Qfloor_resp_le.
  - pose proof (Qfloor_le (a * N)) as Hf.
    rewrite Zlt_Qlt. fold N. lra.
  - pose proof (Qle_ceiling (b * N)) as Hc.
    assert (0 < Qceiling (b * N))%Z; [|lia].
    rewrite Zlt_Qlt. change (inject_Z 0) with 0%Q. lra.
  - assert (Qceiling (b * N) <= Z.of_nat n)%Z; [|lia].
    rewrite <- (Qceiling_Z (Z.of_nat n)). by apply Qceiling_resp_le.
Qed.








(** The search of the split example at the positions 15 and 84, which
    the window takes when [(1 - 0.68) / 2 * 100] and
    [(1 + 0.68) / 2 * 100] are rounded as doubles, keeps the same
    bounds. *)
Remark split_search_at_rounded_positions :
  let sorted := sort_by ascending (replicate 50 355%Q ++ replicate 50 5%Q) in
  let kept := foldl (searchStep sorted 15 84)
                    {| bestRange := 350; bestMin := 5; bestMax := 355 |}
                    offsets in
  array_get sorted 15 = Some 5%Q /\ array_get sorted 84 = Some 355%Q
  /\ bestMin kept = 355%Q /\ bestMax kept = 5%Q /\ bestRange kept = 10%Q.
Proof. repeat split; vm_compute; reflexivity. Qed.

(** ** The per-date aggregates *)

Lemma updateDaily_balanced hour distance id stats date :
  statsBalanced stats ->
  statsBalanced (updateDaily hour distance id stats date).
Proof.
  intros Hstats. unfold updateDaily.
  set (stats0 := match stats !! date with
                 | Some _ => stats
                 | None => <[date := Daily.fresh]> stats
                 end).
  assert (statsBalanced stats0) as H0.
  { unfold stats0. destruct (stats !! date); [done|].
    apply map_Forall_insert_2; [reflexivity|done]. }
  assert (is_Some (stats0 !! date)) as [d0 Hd0].
  { unfold stats0. destruct (stats !! date) eqn:Hl; [by rewrite Hl|].
    by rewrite lookup_insert_eq. }
  assert (balanced d0) as Hb0 by (by eapply (H0 date)).
  clearbody stats0. cbv zeta.
  intros key d Hlook.
  destruct (match hour with
            | Some h => (8 <=? h)%Z && (h <? 20)%Z
            | None => false
            end).
  all: destruct (decide (key = date)) as [->|Hne];
    [|rewrite !lookup_alter_ne in Hlook by done; by eapply (H0 key)].
  all: rewrite !lookup_alter_eq, Hd0 in Hlook; cbn in Hlook.
  all: injection Hlook as <-; unfold balanced in *.
  all: destruct (Qltb _ distance); cbn; lia.
Qed.

Lemma mergeDate_balanced date fileDay allStats :
  statsBalanced allStats -> balanced fileDay ->
  statsBalanced (mergeDate date fileDay allStats).
Proof.
  intros Hall Hfile. unfold mergeDate.
  destruct (allStats !! date) as [d|] eqn:Hd.
  - apply map_Forall_insert_2; [|done].
    assert (balanced d) as Hb by (by eapply (Hall date)).
    unfold balanced in *. cbn.
    destruct (Qltb _ _); cbn; lia.
  - by apply map_Forall_insert_2.
Qed.

Lemma mergeStats_balanced fileStats allStats :
  statsBalanced fileStats -> statsBalanced allStats ->
  statsBalanced (mergeStats fileStats allStats).
Proof.
  intros Hfile Hall. unfold mergeStats. revert Hfile.
  apply (map_fold_weak_ind
           (fun r m => statsBalanced m -> statsBalanced r)); [done|].
  intros date d m r Hnone IH Hins.
  apply map_Forall_insert in Hins as [Hd Hm]; [|done].
  apply mergeDate_balanced; [by apply IH|done].
Qed.

(** Induction on a directory tree, with the entries of a directory. *)
Lemma Entry_tree_ind (P : Entry -> Prop) :
  (forall name lines, P (File name lines)) ->
  (forall name entries, Forall P entries -> P (Directory name entries)) ->
  forall e, P e.
Proof.
  intros Hfile Hdir. fix IH 1. intros [name lines|name entries].
  - apply Hfile.
  - apply Hdir. induction entries as [|e entries IHentries].
    + constructor.
    + constructor; [apply IH | exact IHentries].
Qed.

Section Aggregates.
Context `{Numerics}.

Lemma processLine_balanced debugMode excludeMMSIs run line :
  statsBalanced (stats run) ->
  statsBalanced (stats (processLine debugMode excludeMMSIs run line)).
Proof.
  intros Hrun. unfold processLine.
  repeat (case_match; try done).
  cbn [stats]. by apply updateDaily_balanced.
Qed.

Lemma processLines_balanced debugMode excludeMMSIs lines run :
  statsBalanced (stats run) ->
  statsBalanced (stats (foldl (processLine debugMode excludeMMSIs) run lines)).
Proof.
  revert run. induction lines as [|line lines IH]; intros run Hrun; [done|].
  cbn [foldl]. apply IH. by apply processLine_balanced.
Qed.

Lemma processFile_balanced lines a debugMode excludeMMSIs :
  statsBalanced (stats (processFile lines a debugMode excludeMMSIs)).
Proof.
  unfold processFile. apply processLines_balanced. cbn [stats].
  apply map_Forall_empty.
Qed.

Lemma processDir_fix_eq debugMode excludeMMSIs entries run :
  (fix processDir (es : list Entry) (run : DirRun) : DirRun :=
     match es with
     | [] => run
     | e' :: es' =>
         processDir es' (processEntry debugMode excludeMMSIs e' run)
     end) entries run
  = processDir debugMode excludeMMSIs entries run.
Proof.
  revert run. induction entries as [|e entries IH]; intros run; [done|].
  cbn [processDir foldl]. apply IH.
Qed.

Lemma processEntry_balanced debugMode excludeMMSIs e :
  forall run,
    statsBalanced (allStats run) ->
    statsBalanced (allStats (processEntry debugMode excludeMMSIs e run)).
Proof.
  induction e as [name lines|name entries IH] using Entry_tree_ind;
    intros run Hrun.
  - cbn [processEntry].
    destruct (endsWith ".json" name || endsWith ".json.xz" name); [|done].
    cbn [allStats]. apply mergeStats_balanced; [|done].
    apply processFile_balanced.
  - cbn [processEntry]. rewrite processDir_fix_eq. unfold processDir.
    revert run Hrun. induction IH as [|e entries He _ IHentries];
      intros run Hrun; [done|].
    cbn [foldl]. apply IHentries. by apply He.
Qed.

Lemma processDir_balanced debugMode excludeMMSIs entries run :
  statsBalanced (allStats run) ->
  statsBalanced (allStats (processDir debugMode excludeMMSIs entries run)).
Proof.
  revert run. unfold processDir.
  induction entries as [|e entries IH]; intros run Hrun; [done|].
  cbn [foldl]. apply IH. by apply processEntry_balanced.
Qed.

Lemma processLine_aligned debugMode excludeMMSIs run line :
  aligned (acc run) ->
  aligned (acc (processLine debugMode excludeMMSIs run line)).
Proof.
  intros [Hb Hp]. unfold processLine.
  repeat (case_match; try done).
  unfold aligned. cbn [acc allBearings allDistances allPositions].
  rewrite !length_app. simpl. lia.
Qed.

Lemma processFile_aligned lines a debugMode excludeMMSIs :
  aligned a -> aligned (acc (processFile lines a debugMode excludeMMSIs)).
Proof.
  intros Ha. unfold processFile.
  set (run := {| stats := ∅; excludedCount := 0; parseErrors := 0; acc := a |}).
  assert (aligned (acc run)) as Hrun by done. clearbody run.
  revert run Hrun. induction lines as [|line lines IH]; intros run Hrun; [done|].
  cbn [foldl]. apply IH. by apply processLine_aligned.
Qed.

Lemma processEntry_aligned debugMode excludeMMSIs e :
  forall run,
    aligned (dirAcc run) ->
    aligned (dirAcc (processEntry debugMode excludeMMSIs e run)).
Proof.
  induction e as [name lines|name entries IH] using Entry_tree_ind;
    intros run Hrun.
  - cbn [processEntry].
    destruct (endsWith ".json" name || endsWith ".json.xz" name); [|done].
    cbn [dirAcc]. by apply processFile_aligned.
  - cbn [processEntry]. rewrite processDir_fix_eq. unfold processDir.
    revert run Hrun. induction IH as [|e entries He _ IHentries];
      intros run Hrun; [done|].
    cbn [foldl]. apply IHentries. by apply He.
Qed.

(** The arrays [main] hands to the post-filter have one length. *)
Lemma ingestion_aligned debugMode excludeMMSIs :
  (forall lines,
      aligned (acc (processFile lines noAccumulators debugMode excludeMMSIs)))
  /\ (forall entries,
        aligned (dirAcc (processDirectory entries noAccumulators
                                          debugMode excludeMMSIs))).
Proof.
  split.
  - intros lines. by apply processFile_aligned.
  - intros entries. unfold processDirectory, processDir.
    set (run := {| allStats := ∅; dirAcc := noAccumulators |}).
    assert (aligned (dirAcc run)) as Hrun by done. clearbody run.
    revert run Hrun. induction entries as [|e entries IH]; intros run Hrun;
      [done|].
    cbn [foldl]. apply IH. by apply processEntry_aligned.
Qed.

(** C10.  In the per-date map of [processFile], every date has
    [dayCount + nightCount = totalCount] after each record, that is
    after every prefix of the lines; a per-date merge of a file's
    aggregate into [allStats] keeps this for every date; and so it
    holds in the map [processDirectory] returns. *)
Theorem day_night_total_balanced :
  (forall lines a debugMode excludeMMSIs n,
      statsBalanced
        (stats (processFile (take n lines) a debugMode excludeMMSIs)))
  /\ (forall debugMode excludeMMSIs run line,
        statsBalanced (stats run) ->
        statsBalanced (stats (processLine debugMode excludeMMSIs run line)))
  /\ (forall date fileDay allStats,
        statsBalanced allStats -> balanced fileDay ->
        statsBalanced (mergeDate date fileDay allStats))
  /\ (forall entries a debugMode excludeMMSIs,
        statsBalanced
          (allStats (processDirectory entries a debugMode excludeMMSIs))).
Proof.
  split; [|split; [|split]].
  - intros. apply processFile_balanced.
  - intros. by apply processLine_balanced.
  - intros. by apply mergeDate_balanced.
  - intros. unfold processDirectory. apply processDir_balanced.
    cbn [allStats]. apply map_Forall_empty.
Qed.
End Aggregates.

(** Three records of one date at the hours 09, 14 and 22. *)
Example three_hours_one_date :
  (fun d => (Daily.dayCount d, Daily.nightCount d, Daily.totalCount d))
    <$> stats (@processFile exampleNumerics
                 [recordAt "20250711091500" 1 51.5 0;
                  recordAt "20250711141500" 2 51.5 0.1;
                  recordAt "20250711221500" 3 51.6 0]
                 noAccumulators false ∅) !! "20250711"
  = Some (2, 1, 3).
Proof. vm_compute. reflexivity. Qed.

Lemma day_night_total_balanced_witness :
  statsBalanced
    (mergeDate "20250711"
       {| Daily.dayCount := 2; Daily.nightCount := 1; Daily.totalCount := 3;
          Daily.maxDistance := 12; Daily.maxDistanceMMSI := Some 7%Z |}
       {[ "20250711" :=
            {| Daily.dayCount := 1; Daily.nightCount := 0; Daily.totalCount := 1;
               Daily.maxDistance := 30; Daily.maxDistanceMMSI := Some 9%Z |} ]}).
Proof.
  apply (proj1 (proj2 (proj2 (@day_night_total_balanced exampleNumerics)))).
  - apply map_Forall_singleton. reflexivity.
  - reflexivity.
Defined.

(** ** The command line *)

Section CommandLine.
Context `{Numerics}.



End CommandLine.



(* ================================================================= *)
(** * Part IV: further properties of the program *)
(* ================================================================= *)

(** ** Ingestion: what the accumulators hold *)

(** A property of the accumulators that every line keeps is kept by a
    file, by a directory entry and by a directory. *)
Section AccumulatorInvariant.
Context `{Numerics} (debugMode : bool) (excludeMMSIs : gset Z).
Context (I : Accumulators -> Prop).
Hypothesis line_keeps :
  forall run line,
    I (acc run) -> I (acc (processLine debugMode excludeMMSIs run line)).

Lemma processFile_keeps lines a :
  I a -> I (acc (processFile lines a debugMode excludeMMSIs)).
Proof using line_keeps.
  intros Ha. unfold processFile.
  set (run := {| stats := ∅; excludedCount := 0; parseErrors := 0; acc := a |}).
  assert (I (acc run)) as Hrun by done. clearbody run.
  revert run Hrun. induction lines as [|line lines IH]; intros run Hrun; [done|].
  cbn [foldl]. apply IH. by apply line_keeps.
Qed.

Lemma processEntry_keeps e :
  forall run,
    I (dirAcc run) -> I (dirAcc (processEntry debugMode excludeMMSIs e run)).
Proof using line_keeps.
  induction e as [name lines|name entries IH] using Entry_tree_ind;
    intros run Hrun.
  - cbn [processEntry].
    destruct (endsWith ".json" name || endsWith ".json.xz" name); [|done].
    cbn [dirAcc]. by apply processFile_keeps.
  - cbn [processEntry]. rewrite processDir_fix_eq. unfold processDir.
    revert run Hrun. induction IH as [|e entries He _ IHentries];
      intros run Hrun; [done|].
    cbn [foldl]. apply IHentries. by apply He.
Qed.

Lemma processDirectory_keeps entries a :
  I a -> I (dirAcc (processDirectory entries a debugMode excludeMMSIs)).
Proof using line_keeps.
  intros Ha. unfold processDirectory, processDir.
  set (run := {| allStats := ∅; dirAcc := a |}).
  assert (I (dirAcc run)) as Hrun by done. clearbody run.
  revert run Hrun. induction entries as [|e entries IH]; intros run Hrun;
    [done|].
  cbn [foldl]. apply IH. by apply processEntry_keeps.
Qed.
End AccumulatorInvariant.

Section Accepted.
Context `{Numerics}.



Lemma sectorCounts_snoc bearings b :
  sectorCounts (bearings ++ [b])
  = countSector (sectorCounts bearings) (bearingSector b).
Proof. unfold sectorCounts. by rewrite map_app, foldl_app. Qed.

(** X2.  The sector counts a file or a directory accumulates are the
    counts of the bearings it accumulates: recomputing them from the
    unfiltered bearing array gives the same object. *)
Theorem accumulated_sectors_count_all_bearings (debugMode : bool)
    (excludeMMSIs : gset Z) :
  (forall lines,
      let a := acc (processFile lines noAccumulators debugMode excludeMMSIs) in
      bearingCounts a = sectorCounts (allBearings a))
  /\ (forall entries,
        let a := dirAcc (processDirectory entries noAccumulators
                                          debugMode excludeMMSIs) in
        bearingCounts a = sectorCounts (allBearings a)).
Proof.
  assert (forall run line,
             bearingCounts (acc run) = sectorCounts (allBearings (acc run)) ->
             bearingCounts (acc (processLine debugMode excludeMMSIs run line))
             = sectorCounts
                 (allBearings (acc (processLine debugMode excludeMMSIs run line))))
    as Hstep.
  { intros run line Hrun. unfold processLine.
    repeat (case_match; try done).
    cbn [acc bearingCounts allBearings]. by rewrite sectorCounts_snoc, Hrun. }
  split; intros x; cbv zeta.
  - by apply (processFile_keeps debugMode excludeMMSIs
                (fun a => bearingCounts a = sectorCounts (allBearings a))).
  - by apply (processDirectory_keeps debugMode excludeMMSIs
                (fun a => bearingCounts a = sectorCounts (allBearings a))).
Qed.
End Accepted.

(** ** Ingestion: debug mode and exclusion *)

Section DebugAndExclusion.
Context `{Numerics}.

Lemma processLine_sameRun excludeMMSIs run1 run2 line :
  sameRun run1 run2 ->
  sameRun (processLine true excludeMMSIs run1 line)
          (processLine false excludeMMSIs run2 line).
Proof.
  destruct run1 as [s1 e1 p1 [d1 c1 b1 g1 ps1]], run2 as [s2 e2 p2 [d2 c2 b2 g2 ps2]].
  intros (Hs & He & Hp & Hd & Hc & Hb & Hps). simpl in *. subst.
  unfold processLine.
  repeat (case_match; try done); by repeat split.
Qed.

Lemma processLines_sameRun excludeMMSIs lines run1 run2 :
  sameRun run1 run2 ->
  sameRun (foldl (processLine true excludeMMSIs) run1 lines)
          (foldl (processLine false excludeMMSIs) run2 lines).
Proof.
  revert run1 run2. induction lines as [|line lines IH]; intros run1 run2 Hr;
    [done|].
  cbn [foldl]. apply IH. by apply processLine_sameRun.
Qed.

Lemma processEntry_same_samples excludeMMSIs e :
  forall run1 run2,
    allStats run1 = allStats run2 -> sameSamples (dirAcc run1) (dirAcc run2) ->
    allStats (processEntry true excludeMMSIs e run1)
    = allStats (processEntry false excludeMMSIs e run2)
    /\ sameSamples (dirAcc (processEntry true excludeMMSIs e run1))
                   (dirAcc (processEntry false excludeMMSIs e run2)).
Proof.
  induction e as [name lines|name entries IH] using Entry_tree_ind;
    intros run1 run2 Hs Ha.
  - cbn [processEntry].
    destruct (endsWith ".json" name || endsWith ".json.xz" name); [|done].
    cbn [allStats dirAcc]. unfold processFile.
    destruct (processLines_sameRun excludeMMSIs lines
                {| stats := ∅; excludedCount := 0; parseErrors := 0;
                   acc := dirAcc run1 |}
                {| stats := ∅; excludedCount := 0; parseErrors := 0;
                   acc := dirAcc run2 |}) as (Hst & _ & _ & Hsame).
    { repeat split; apply Ha. }
    by rewrite Hst, Hs.
  - cbn [processEntry]. rewrite !processDir_fix_eq. unfold processDir.
    revert run1 run2 Hs Ha. induction IH as [|e entries He _ IHentries];
      intros run1 run2 Hs Ha; [done|].
    cbn [foldl]. destruct (He run1 run2 Hs Ha) as [Hs' Ha']. by apply IHentries.
Qed.

Lemma processLine_debug_entries excludeMMSIs (debugMode : bool) run line :
  (if debugMode then Forall beyondCeiling (debugDistances (acc run))
   else debugDistances (acc run) = []) ->
  if debugMode
  then Forall beyondCeiling
              (debugDistances (acc (processLine debugMode excludeMMSIs run line)))
  else debugDistances (acc (processLine debugMode excludeMMSIs run line)) = [].
Proof.
  intros Hrun. unfold processLine.
  repeat (case_match; try done).
  cbn [acc debugDistances]. subst. apply Forall_app. split; [done|].
  constructor; [|constructor]. unfold beyondCeiling.
  cbn [dbg_distance dbg_lat dbg_lon].
  split; [|done]. by apply Qltb_lt.
Qed.

(** X3.  Debug mode changes nothing but the debug collection: a file or
    a directory processed with and without it gives the same per-date
    aggregates, counters, distances, bearings, positions and sector
    counts.  Without debug mode the debug collection stays empty; with
    it, every entry collected lies beyond the 100 nm ceiling. *)
Theorem debug_mode_only_collects (excludeMMSIs : gset Z) :
  (forall lines,
      sameRun (processFile lines noAccumulators true excludeMMSIs)
              (processFile lines noAccumulators false excludeMMSIs))
  /\ (forall entries,
        allStats (processDirectory entries noAccumulators true excludeMMSIs)
        = allStats (processDirectory entries noAccumulators false excludeMMSIs)
        /\ sameSamples
             (dirAcc (processDirectory entries noAccumulators true excludeMMSIs))
             (dirAcc (processDirectory entries noAccumulators false excludeMMSIs)))
  /\ (forall lines,
        debugDistances
          (acc (processFile lines noAccumulators false excludeMMSIs)) = [])
  /\ (forall lines,
        Forall beyondCeiling
               (debugDistances
                  (acc (processFile lines noAccumulators true excludeMMSIs)))).
Proof.
  split; [|split; [|split]].
  - intros lines. unfold processFile. apply processLines_sameRun.
    by repeat split.
  - intros entries. unfold processDirectory, processDir.
    set (run := {| allStats := ∅; dirAcc := noAccumulators |}).
    assert (allStats run = allStats run /\ sameSamples (dirAcc run) (dirAcc run))
      as Hrun by (by repeat split).
    revert Hrun. generalize run at 1 3 5 7. generalize run.
    induction entries as [|e entries IH]; intros run2 run1 [Hs Ha]; [done|].
    cbn [foldl]. apply IH. by apply processEntry_same_samples.
  - intros lines.
    apply (processFile_keeps false excludeMMSIs
             (fun a => debugDistances a = [])); [|done].
    intros run line. apply (processLine_debug_entries excludeMMSIs false).
  - intros lines.
    apply (processFile_keeps true excludeMMSIs
             (fun a => Forall beyondCeiling (debugDistances a)));
      [|by constructor].
    intros run line. apply (processLine_debug_entries excludeMMSIs true).
Qed.

Lemma processLine_excluded debugMode excludeMMSIs run line :
  isExcluded excludeMMSIs line = true ->
  processLine debugMode excludeMMSIs run line
  = {| stats := stats run; excludedCount := S (excludedCount run);
       parseErrors := parseErrors run; acc := acc run |}.
Proof.
  unfold isExcluded, processLine. destruct line as [|data]; [done|].
  destruct (payload data) as [p|]; [|done].
  intros [Ht He]%andb_true_iff. by rewrite Ht, He.
Qed.

Lemma processLine_kept debugMode excludeMMSIs run1 run2 line :
  isExcluded excludeMMSIs line = false ->
  sameKept run1 run2 ->
  sameKept (processLine debugMode excludeMMSIs run1 line)
           (processLine debugMode excludeMMSIs run2 line)
  /\ excludedCount (processLine debugMode excludeMMSIs run1 line)
     = excludedCount run1.
Proof.
  destruct run1 as [s1 e1 p1 a1], run2 as [s2 e2 p2 a2].
  intros Hex (Hs & Hp & Ha). simpl in *. subst.
  unfold isExcluded in Hex. unfold processLine.
  destruct line as [|data]; [done|].
  destruct (payload data) as [p|]; [|done].
  destruct (String.eqb (topic data) "ais/data"); [|done].
  cbn [andb negb] in *. rewrite Hex.
  repeat (case_match; try done).
Qed.

(** X4.  Exclusion removes records and counts them: processing a file
    gives the same aggregates, accumulators and error count as
    processing it without the lines whose id is excluded, and the
    excluded counter is the number of those lines, one per occurrence. *)
Theorem exclusion_drops_and_counts (debugMode : bool) (excludeMMSIs : gset Z)
    (lines : list Line) (a : Accumulators) :
  let whole := processFile lines a debugMode excludeMMSIs in
  let rest :=
    processFile (List.filter (fun l => negb (isExcluded excludeMMSIs l)) lines)
                a debugMode excludeMMSIs in
  sameKept whole rest
  /\ excludedCount whole
     = length (List.filter (isExcluded excludeMMSIs) lines)
  /\ excludedCount rest = 0.
Proof.
  unfold processFile.
  set (run := {| stats := ∅; excludedCount := 0; parseErrors := 0; acc := a |}).
  enough (forall run1 run2,
    sameKept run1 run2 ->
    sameKept (foldl (processLine debugMode excludeMMSIs) run1 lines)
             (foldl (processLine debugMode excludeMMSIs) run2
                    (List.filter (fun l => negb (isExcluded excludeMMSIs l)) lines))
    /\ excludedCount (foldl (processLine debugMode excludeMMSIs) run1 lines)
       = excludedCount run1 + length (List.filter (isExcluded excludeMMSIs) lines)
    /\ excludedCount
         (foldl (processLine debugMode excludeMMSIs) run2
                (List.filter (fun l => negb (isExcluded excludeMMSIs l)) lines))
       = excludedCount run2) as Hgen.
  { apply (Hgen run run). by repeat split. }
  induction lines as [|line lines IH]; intros run1 run2 Hsame.
  { simpl. repeat split; try apply Hsame. lia. }
  cbn [foldl List.filter].
  destruct (isExcluded excludeMMSIs line) eqn:Hex; cbn [negb].
  - rewrite processLine_excluded by done.
    destruct (IH {| stats := stats run1; excludedCount := S (excludedCount run1);
                    parseErrors := parseErrors run1; acc := acc run1 |} run2)
      as (Hk & Hc & Hz).
    { destruct Hsame as (? & ? & ?). by repeat split. }
    repeat split; try apply Hk; [|done]. rewrite Hc. simpl. lia.
  - cbn [foldl].
    destruct (processLine_kept debugMode excludeMMSIs run1 run2 line Hex Hsame)
      as [Hk1 Hc1].
    destruct (processLine_kept debugMode excludeMMSIs run2 run2 line Hex)
      as [_ Hc2]; [by repeat split|].
    destruct (IH _ _ Hk1) as (Hk & Hc & Hz).
    repeat split; try apply Hk; [by rewrite Hc, Hc1 | by rewrite Hz, Hc2].
Qed.
End DebugAndExclusion.

(** ** Aggregation: totals and maxima *)

Lemma updateDaily_insert hour distance id stats date :
  updateDaily hour distance id stats date
  = <[date := dailyAfter hour distance id
                         (default Daily.fresh (stats !! date))]> stats.
Proof.
  unfold updateDaily, dailyAfter. cbv zeta.
  set (isDay := match hour with
                | Some h => (8 <=? h)%Z && (h <? 20)%Z
                | None => false
                end).
  destruct (stats !! date) as [d|] eqn:Hd; cbn [default].
  - rewrite (alter_alt_Some _ stats date d) by done.
    destruct isDay; rewrite !alter_insert_eq; cbn;
      destruct (Qltb (Daily.maxDistance d) distance); by destruct d.
  - destruct isDay; rewrite !alter_insert_eq; cbn;
      by destruct (Qltb 0 distance).
Qed.

Lemma sum_list_Permutation (l1 l2 : list nat) :
  l1 ≡ₚ l2 -> sum_list l1 = sum_list l2.
Proof. induction 1; simpl; lia. Qed.







Section Totals.
Context `{Numerics}.




End Totals.

Lemma maxRecorded_more positions positions' d :
  positions `prefix_of` positions' ->
  maxRecorded positions d -> maxRecorded positions' d.
Proof.
  intros [news ->] [Hnone|(p & Hp & Hrest)]; [by left|right].
  exists p. split; [|done]. apply elem_of_app. by left.
Qed.

Lemma mergeDate_maxRecorded positions date fileDay allStats :
  map_Forall (fun _ d => maxRecorded positions d) allStats ->
  maxRecorded positions fileDay ->
  map_Forall (fun _ d => maxRecorded positions d)
             (mergeDate date fileDay allStats).
Proof.
  intros Hall Hfile. unfold mergeDate.
  destruct (allStats !! date) as [d|] eqn:Hd.
  - apply map_Forall_insert_2; [|done].
    assert (maxRecorded positions d) as Hold by (by eapply (Hall date)).
    cbn. destruct (Qltb _ _); unfold maxRecorded in *; cbn; done.
  - by apply map_Forall_insert_2.
Qed.

Lemma mergeStats_maxRecorded positions fileStats allStats :
  map_Forall (fun _ d => maxRecorded positions d) fileStats ->
  map_Forall (fun _ d => maxRecorded positions d) allStats ->
  map_Forall (fun _ d => maxRecorded positions d)
             (mergeStats fileStats allStats).
Proof.
  intros Hfile Hall. unfold mergeStats. revert Hfile.
  apply (map_fold_weak_ind
           (fun r m => map_Forall (fun _ d => maxRecorded positions d) m ->
                       map_Forall (fun _ d => maxRecorded positions d) r));
    [done|].
  intros date d m r Hnone IH Hins.
  apply map_Forall_insert in Hins as [Hd Hm]; [|done].
  apply mergeDate_maxRecorded; [by apply IH|done].
Qed.

Section Maxima.
Context `{Numerics}.

Lemma processLine_positions_grow debugMode excludeMMSIs run line :
  allPositions (acc run)
  `prefix_of` allPositions (acc (processLine debugMode excludeMMSIs run line)).
Proof.
  unfold processLine.
  repeat (case_match; try done).
  cbn [acc allPositions]. by eexists.
Qed.

Lemma processFile_positions_grow lines a debugMode excludeMMSIs :
  allPositions a
  `prefix_of` allPositions (acc (processFile lines a debugMode excludeMMSIs)).
Proof.
  apply (processFile_keeps debugMode excludeMMSIs
           (fun a' => allPositions a `prefix_of` allPositions a')); [|done].
  intros run line Hrun. etrans; [exact Hrun|].
  apply processLine_positions_grow.
Qed.

Lemma processLine_maxRecorded debugMode excludeMMSIs run line :
  map_Forall (fun _ d => maxRecorded (allPositions (acc run)) d) (stats run) ->
  map_Forall
    (fun _ d =>
       maxRecorded
         (allPositions (acc (processLine debugMode excludeMMSIs run line))) d)
    (stats (processLine debugMode excludeMMSIs run line)).
Proof.
  intros Hrun. unfold processLine.
  repeat (case_match; try done).
  cbn [stats acc allPositions]. rewrite updateDaily_insert.
  match goal with |- context [allPositions (acc run) ++ [?p]] =>
    set (new := p) end.
  match goal with |- map_Forall _ (<[?date := _]> _) =>
    generalize date; intros day end.
  match goal with |- map_Forall _ (<[_ := dailyAfter _ _ _ ?d0]> _) =>
    set (old := d0) end.
  assert (maxRecorded (allPositions (acc run)) old) as Hold.
  { unfold old. destruct (stats run !! day) as [d0|] eqn:Hd0; cbn.
    - by eapply (Hrun day).
    - by left. }
  clearbody old. apply map_Forall_insert_2.
  - unfold dailyAfter. cbv zeta.
    destruct (Qltb (Daily.maxDistance old) _) eqn:Hfar.
    + right. exists new. apply Qltb_lt in Hfar.
      split; [apply elem_of_app; right; by left|].
      cbn. repeat split.
      destruct Hold as [[_ Hzero]|(p0 & _ & Hp0 & _ & Hpos)].
      * by rewrite Hzero in Hfar.
      * rewrite Hp0 in Hfar. lra.
    + eapply (maxRecorded_more (allPositions (acc run))); [by eexists|].
      destruct Hold as [Hnone|(p0 & Hp0)]; [by left|right]. by exists p0.
  - eapply map_Forall_impl; [exact Hrun|]. intros date d Hd. simpl in Hd.
    eapply maxRecorded_more; [|exact Hd]. by eexists.
Qed.

Lemma processFile_maxRecorded lines a debugMode excludeMMSIs :
  map_Forall
    (fun _ d =>
       maxRecorded
         (allPositions (acc (processFile lines a debugMode excludeMMSIs))) d)
    (stats (processFile lines a debugMode excludeMMSIs)).
Proof.
  unfold processFile.
  set (run := {| stats := ∅; excludedCount := 0; parseErrors := 0; acc := a |}).
  assert (map_Forall (fun _ d => maxRecorded (allPositions (acc run)) d)
                     (stats run)) as Hrun by apply map_Forall_empty.
  clearbody run. revert run Hrun.
  induction lines as [|line lines IH]; intros run Hrun; [done|].
  cbn [foldl]. apply IH. by apply processLine_maxRecorded.
Qed.

Lemma processEntry_maxRecorded debugMode excludeMMSIs e :
  forall run,
    map_Forall (fun _ d => maxRecorded (allPositions (dirAcc run)) d)
               (allStats run) ->
    map_Forall
      (fun _ d =>
         maxRecorded
           (allPositions (dirAcc (processEntry debugMode excludeMMSIs e run))) d)
      (allStats (processEntry debugMode excludeMMSIs e run)).
Proof.
  induction e as [name lines|name entries IH] using Entry_tree_ind;
    intros run Hrun.
  - cbn [processEntry].
    destruct (endsWith ".json" name || endsWith ".json.xz" name); [|done].
    cbn [allStats dirAcc]. apply mergeStats_maxRecorded.
    + apply processFile_maxRecorded.
    + eapply map_Forall_impl; [exact Hrun|]. intros date d Hd. simpl in Hd.
      eapply maxRecorded_more; [|exact Hd]. apply processFile_positions_grow.
  - cbn [processEntry]. rewrite processDir_fix_eq. unfold processDir.
    revert run Hrun. induction IH as [|e entries He _ IHentries];
      intros run Hrun; [done|].
    cbn [foldl]. apply IHentries. by apply He.
Qed.

(** X6.  The farthest signal of a date is a recorded one: in the map a
    file or a directory returns, the maximum distance of every date is
    the distance of a position held in the position array, strictly
    positive, reported with the id of that position; or it is still [0]
    with no id, when no record of the date lies at a positive distance. *)
Theorem date_maximum_is_a_recorded_position (debugMode : bool)
    (excludeMMSIs : gset Z) :
  (forall lines a,
      let run := processFile lines a debugMode excludeMMSIs in
      map_Forall (fun _ d => maxRecorded (allPositions (acc run)) d)
                 (stats run))
  /\ (forall entries,
        let result := processDirectory entries noAccumulators
                                       debugMode excludeMMSIs in
        map_Forall (fun _ d => maxRecorded (allPositions (dirAcc result)) d)
                   (allStats result)).
Proof.
  split.
  - intros lines a. apply processFile_maxRecorded.
  - intros entries. cbv zeta. unfold processDirectory, processDir.
    set (run := {| allStats := ∅; dirAcc := noAccumulators |}).
    assert (map_Forall (fun _ d => maxRecorded (allPositions (dirAcc run)) d)
                       (allStats run)) as Hrun by apply map_Forall_empty.
    clearbody run. revert run Hrun.
    induction entries as [|e entries IH]; intros run Hrun; [done|].
    cbn [foldl]. apply IH. by apply processEntry_maxRecorded.
Qed.
End Maxima.

(** ** Directories *)

Lemma mergeStats_into_empty (fileStats : gmap string Daily.t) :
  mergeStats fileStats ∅ = fileStats.
Proof.
  unfold mergeStats.
  apply (map_fold_weak_ind (fun r m => r = m)); [done|].
  intros date d m r Hnone ->. unfold mergeDate. by rewrite Hnone.
Qed.

Section DirectoryShape.
Context `{Numerics}.

Lemma jsonFiles_inDir entries :
  (fix inDir (es : list Entry) : list (list Line) :=
     match es with
     | [] => []
     | e' :: es' => jsonFiles e' ++ inDir es'
     end) entries
  = jsonFilesOf entries.
Proof. induction entries as [|e entries IH]; [done|]. simpl. by rewrite IH. Qed.

Lemma processEntry_jsonFiles debugMode excludeMMSIs e :
  forall run,
    processEntry debugMode excludeMMSIs e run
    = foldl (mergeFile debugMode excludeMMSIs) run (jsonFiles e).
Proof.
  induction e as [name lines|name entries IH] using Entry_tree_ind; intros run.
  - cbn [processEntry jsonFiles].
    by destruct (endsWith ".json" name || endsWith ".json.xz" name).
  - cbn [processEntry jsonFiles].
    rewrite processDir_fix_eq, jsonFiles_inDir. unfold processDir.
    revert run. induction IH as [|e entries He _ IHentries]; intros run; [done|].
    cbn [foldl]. unfold jsonFilesOf. cbn [flat_map].
    rewrite foldl_app, <- He. exact (IHentries _).
Qed.

Lemma processDir_jsonFiles debugMode excludeMMSIs entries run :
  processDir debugMode excludeMMSIs entries run
  = foldl (mergeFile debugMode excludeMMSIs) run (jsonFilesOf entries).
Proof.
  unfold processDir. revert run.
  induction entries as [|e entries IH]; intros run; [done|].
  cbn [foldl]. unfold jsonFilesOf. cbn [flat_map].
  rewrite foldl_app, <- processEntry_jsonFiles. exact (IH _).
Qed.

(** X7.  A directory is processed as the sequence of its record files:
    [processDirectory] gives what folding [processFile] and the per-date
    merge over the files named [*.json] or [*.json.xz], taken depth
    first, gives; files of other names and the nesting of the
    directories do not matter. *)
Theorem directory_is_its_record_files (debugMode : bool)
    (excludeMMSIs : gset Z) (entries : list Entry) (a : Accumulators) :
  processDirectory entries a debugMode excludeMMSIs
  = foldl (mergeFile debugMode excludeMMSIs)
          {| allStats := ∅; dirAcc := a |} (jsonFilesOf entries).
Proof. unfold processDirectory. apply processDir_jsonFiles. Qed.

(** X8.  A directory that holds one record file, at any depth and among
    files of other names, gives the per-date aggregates and the
    accumulators that [processFile] gives on that file. *)
Theorem directory_of_one_record_file (debugMode : bool)
    (excludeMMSIs : gset Z) (entries : list Entry) (lines : list Line)
    (a : Accumulators)
    (Hone : jsonFilesOf entries = [lines]) :
  allStats (processDirectory entries a debugMode excludeMMSIs)
  = stats (processFile lines a debugMode excludeMMSIs)
  /\ dirAcc (processDirectory entries a debugMode excludeMMSIs)
     = acc (processFile lines a debugMode excludeMMSIs).
Proof.
  unfold processDirectory. rewrite processDir_jsonFiles, Hone.
  cbn [foldl mergeFile allStats dirAcc].
  by rewrite mergeStats_into_empty.
Qed.
End DirectoryShape.

Lemma directory_of_one_record_file_witness :
  let entries :=
    [Directory "2025" [File "notes.txt" [Garbled];
                       Directory "07" [File "11.json.xz"
                                            [recordAt "20250711091500" 1 51.5 0]]]] in
  allStats (@processDirectory exampleNumerics entries noAccumulators false ∅)
  = stats (@processFile exampleNumerics [recordAt "20250711091500" 1 51.5 0]
                        noAccumulators false ∅)
  /\ dirAcc (@processDirectory exampleNumerics entries noAccumulators false ∅)
     = acc (@processFile exampleNumerics [recordAt "20250711091500" 1 51.5 0]
                         noAccumulators false ∅).
Proof.
  intros entries.
  apply (@directory_of_one_record_file exampleNumerics false ∅ entries
           [recordAt "20250711091500" 1 51.5 0] noAccumulators).
  reflexivity.
Defined.

(** ** The post-filter on recorded samples *)

Lemma filter_fmap_bool {A B} (f : A -> B) (keep : B -> bool) (l : list A) :
  List.filter keep (f <$> l) = f <$> List.filter (fun x => keep (f x)) l.
Proof.
  induction l as [|x l IH]; [done|].
  rewrite fmap_cons. cbn [List.filter]. destruct (keep (f x)); by rewrite IH.
Qed.

Lemma filter_idempotent {A} (keep : A -> bool) (l : list A) :
  List.filter keep (List.filter keep l) = List.filter keep l.
Proof.
  rewrite filter_filter_bool. apply List.filter_ext. intros x.
  by destruct (keep x).
Qed.

Lemma rows_of_positions (positions : list Position) :
  rows (pos_distance <$> positions) (pos_bearing <$> positions) positions
  = rowOf <$> positions.
Proof.
  unfold rows. induction positions as [|p positions IH]; [done|].
  rewrite !fmap_cons. cbn [zip_with]. by rewrite IH.
Qed.

Lemma arraysOf_rows (positions : list Position) :
  arraysOf positions
  = (rowDistance <$> (rowOf <$> positions),
     rowBearing <$> (rowOf <$> positions),
     rowPosition <$> (rowOf <$> positions)).
Proof.
  unfold arraysOf. rewrite <- !list_fmap_compose.
  replace (rowPosition ∘ rowOf <$> positions) with positions; [done|].
  symmetry. apply list_fmap_id.
Qed.

Lemma postFilter_rows_any (minDistance maxDistance : number) (l : list Row) :
  postFilter minDistance maxDistance
             (rowDistance <$> l) (rowBearing <$> l) (rowPosition <$> l)
  = let kept :=
      List.filter (fun r => passes minDistance maxDistance (rowDistance r)) l in
    (rowDistance <$> kept, rowBearing <$> kept, rowPosition <$> kept).
Proof.
  unfold postFilter, passes. cbv zeta.
  destruct (num_ltb (Fin 0) minDistance), (num_ltb (Fin 0) maxDistance);
    cbn [negb orb andb]; rewrite ?applyBound_rows; cbv zeta;
    rewrite ?applyBound_rows; cbv zeta.
  - by rewrite filter_filter_bool.
  - f_equal; [f_equal|]; f_equal; apply List.filter_ext;
      intros r; by rewrite andb_true_r.
  - done.
  - by rewrite filter_all.
Qed.

Lemma postFilter_arraysOf (minDistance maxDistance : number)
    (positions : list Position) :
  postFilter minDistance maxDistance
             (pos_distance <$> positions) (pos_bearing <$> positions) positions
  = arraysOf (List.filter
                (fun p => passes minDistance maxDistance (pos_distance p))
                positions).
Proof.
  pose proof (arraysOf_rows positions) as Hin. unfold arraysOf in Hin.
  injection Hin as Hd Hb Hp.
  rewrite Hd, Hb. rewrite Hp at 3.
  rewrite postFilter_rows_any. cbv zeta.
  rewrite (filter_fmap_bool rowOf). by rewrite <- arraysOf_rows.
Qed.

(** X9.  On the arrays of recorded positions, and for any two bounds
    (finite, infinite or [NaN]), the post-filter keeps exactly the
    positions whose own distance passes the active bounds, in their
    order, and the filtered distances and bearings are the distances
    and bearings of the positions kept. *)
Theorem postFilter_keeps_samples_whole (minDistance maxDistance : number)
    (positions : list Position) :
  let kept :=
    List.filter (fun p => passes minDistance maxDistance (pos_distance p))
                positions in
  postFilter minDistance maxDistance
             (pos_distance <$> positions) (pos_bearing <$> positions) positions
  = (pos_distance <$> kept, pos_bearing <$> kept, kept).
Proof. apply postFilter_arraysOf. Qed.

(** X10.  The post-filter is idempotent on recorded positions: applied
    with the same bounds to the three arrays it returned, it returns
    them unchanged. *)
Theorem postFilter_idempotent (minDistance maxDistance : number)
    (positions : list Position) :
  let '(filteredDistances, filteredBearings, filteredPositions) :=
    postFilter minDistance maxDistance
               (pos_distance <$> positions) (pos_bearing <$> positions)
               positions in
  postFilter minDistance maxDistance
             filteredDistances filteredBearings filteredPositions
  = (filteredDistances, filteredBearings, filteredPositions).
Proof.
  rewrite postFilter_arraysOf. unfold arraysOf.
  rewrite postFilter_arraysOf. unfold arraysOf.
  by rewrite filter_idempotent.
Qed.

(** ** The distribution: array, extremes, ranges and counts *)

Lemma sorted_last_greatest (l : list Q) (x : Q) :
  StronglySorted Qle l -> x ∈ l -> (x <= List.last l 0%Q)%Q.
Proof.
  intros Hsorted. revert x.
  induction Hsorted as [|y l Hs IH Hy]; intros x Hx;
    [by apply elem_of_nil in Hx|].
  destruct l as [|z l].
  { apply list_elem_of_singleton in Hx as ->. simpl. lra. }
  change (List.last (y :: z :: l) 0%Q) with (List.last (z :: l) 0%Q).
  apply elem_of_cons in Hx as [->|Hx]; [|by apply IH].
  apply Forall_cons in Hy as [Hyz _].
  assert (z <= List.last (z :: l) 0)%Q by (apply IH; by left). lra.
Qed.

Lemma hd_elem_of (l : list Q) : l <> [] -> hd 0%Q l ∈ l.
Proof. destruct l as [|y l]; [done|]. intros _. by left. Qed.

Lemma last_elem_of (l : list Q) : l <> [] -> List.last l 0%Q ∈ l.
Proof.
  induction l as [|y l IH]; [done|]. intros _.
  destruct l as [|z l]; [by left|].
  change (List.last (y :: z :: l) 0%Q) with (List.last (z :: l) 0%Q).
  right. by apply IH.
Qed.

Lemma length_filter_Permutation {A} (keep : A -> bool) (l1 l2 : list A) :
  l1 ≡ₚ l2 -> length (List.filter keep l1) = length (List.filter keep l2).
Proof.
  induction 1 as [|x l1 l2 _ IH|x y l|l1 l2 l3 _ IH1 _ IH2]; simpl.
  - done.
  - destruct (keep x); simpl; by rewrite IH.
  - by destruct (keep x), (keep y).
  - by rewrite IH1.
Qed.

Lemma foldl_increment_lookup {A} (key : A -> number) (l : list A)
    (bins : list nat) (i : nat) :
  foldl (fun bins x => increment bins (key x)) bins l !! i
  = (fun c => c + length (List.filter
                            (fun x => bool_decide (array_index (key x) = Some i))
                            l))
      <$> bins !! i.
Proof.
  revert bins. induction l as [|x l IH]; intros bins.
  { simpl. destruct (bins !! i); simpl; [f_equal; lia|done]. }
  cbn [foldl List.filter]. rewrite IH. unfold increment.
  destruct (array_index (key x)) as [j|] eqn:Hkey.
  - rewrite list_lookup_alter.
    destruct (decide (j = i)) as [->|Hne].
    + rewrite bool_decide_eq_true_2 by done.
      destruct (bins !! i); simpl; [f_equal; lia|done].
    + rewrite bool_decide_eq_false_2 by congruence. done.
  - by rewrite bool_decide_eq_false_2.
Qed.


Lemma Qfloor_unique (q : Q) (k : Z) :
  (inject_Z k <= q < inject_Z (k + 1))%Q -> Qfloor q = k.
Proof.
  intros [Hl Hu].
  pose proof (Qfloor_le q) as Hf. pose proof (Qlt_floor q) as Hg.
  assert (Qfloor q < k + 1)%Z by (rewrite Zlt_Qlt; lra).
  assert (k < Qfloor q + 1)%Z by (rewrite Zlt_Qlt; lra).
  lia.
Qed.


(** X11.  [calculateDistribution] leaves its argument array sorted in
    ascending order, holding the same values, whatever the array; the
    result is [undefined] exactly on the empty array. *)
Theorem distribution_leaves_argument_sorted (distances : list Q) :
  (calculateDistribution distances).1 ≡ₚ distances
  /\ StronglySorted Qle (calculateDistribution distances).1
  /\ ((calculateDistribution distances).2 = None <-> distances = []).
Proof.
  destruct distances as [|x distances].
  { repeat split; try done. constructor. }
  unfold calculateDistribution. cbv zeta. cbn [fst snd].
  split; [apply sort_by_Permutation|].
  split; [apply sort_ascending_sorted|]. split; discriminate.
Qed.

(** X12.  The reported minimum and maximum are values of the sequence
    that bound every value of it, and the reported count is its length. *)
Theorem distribution_extremes (distances : list Q) (d : Distribution)
    (Hd : (calculateDistribution distances).2 = Some d) :
  dist_min d ∈ distances
  /\ dist_max d ∈ distances
  /\ Forall (fun x => dist_min d <= x <= dist_max d)%Q distances
  /\ dist_count d = length distances.
Proof.
  destruct distances as [|x distances]; [done|].
  unfold calculateDistribution in Hd. cbv zeta in Hd. cbn [snd] in Hd.
  injection Hd as <-. cbn [dist_min dist_max dist_count].
  set (sorted := sort_by ascending (x :: distances)).
  assert (sorted ≡ₚ x :: distances) as Hperm by apply sort_by_Permutation.
  assert (StronglySorted Qle sorted) as Hsorted by apply sort_ascending_sorted.
  assert (sorted <> []) as Hne.
  { intros Hnil. rewrite Hnil in Hperm. by apply Permutation_nil_cons in Hperm. }
  repeat split.
  - rewrite <- Hperm. by apply hd_elem_of.
  - rewrite <- Hperm. by apply last_elem_of.
  - apply Forall_forall. intros y Hy. rewrite <- Hperm in Hy.
    split; [by apply sorted_hd_least | by apply sorted_last_greatest].
  - exact (sort_by_length ascending (x :: distances)).
Qed.

Lemma distribution_extremes_witness :
  exists d, (calculateDistribution [4; 1; 3]%Q).2 = Some d
            /\ dist_min d ∈ [4; 1; 3]%Q /\ dist_max d ∈ [4; 1; 3]%Q
            /\ Forall (fun x => dist_min d <= x <= dist_max d)%Q [4; 1; 3]%Q
            /\ dist_count d = 3.
Proof.
  eexists. split; [reflexivity|].
  exact (distribution_extremes [4; 1; 3]%Q _ eq_refl).
Defined.



(** X14.  Each bin holds the number of distances whose bin key is its
    index: for every index below ten, the count is the number of values
    of the sequence with that key (a value whose key is [NaN] is in no
    bin). *)
Theorem bins_count_by_key (distances : list Q) (d : Distribution) (i : nat)
    (Hd : (calculateDistribution distances).2 = Some d)
    (Hi : i < 10) :
  bins d !! i
  = Some (length (List.filter
                    (fun x => bool_decide (array_index (binKey d x) = Some i))
                    distances)).
Proof.
  destruct distances as [|x distances]; [done|].
  unfold calculateDistribution in Hd. cbv zeta in Hd. cbn [snd] in Hd.
  injection Hd as <-. unfold binKey. cbn [bins dist_min dist_max].
  rewrite (foldl_increment_lookup
             (fun dist => binIndex dist _ _)).
  change [0; 0; 0; 0; 0; 0; 0; 0; 0; 0] with (replicate 10 0).
  rewrite lookup_replicate_2 by done. cbn [fmap option_fmap option_map].
  f_equal. cbn [Nat.add].
  apply length_filter_Permutation.
  exact (sort_by_Permutation ascending (x :: distances)).
Qed.

Lemma bins_count_by_key_witness :
  exists d, (calculateDistribution [0; 10; 4]%Q).2 = Some d
            /\ bins d !! 4
               = Some (length (List.filter
                                 (fun x => bool_decide
                                             (array_index (binKey d x) = Some 4))
                                 [0; 10; 4]%Q)).
Proof.
  eexists. split; [reflexivity|].
  apply (bins_count_by_key [0; 10; 4]%Q _ 4 eq_refl). lia.
Defined.

Lemma bins_sum_when_spread_witness :
  exists d, (calculateDistribution [0; 10; 4; 5; 9.99]%Q).2 = Some d
            /\ sum_list (bins d) = 5 /\ dist_count d = 5.
Proof.
  eexists. split; [reflexivity|].
  apply (bins_sum_when_spread [0; 10; 4; 5; 9.99]%Q _ eq_refl). reflexivity.
Defined.



(** ** Rotation and the bounds of the percentile range *)















(** X19.  Bearings that are all equal give the widest beam, not the
    narrowest: both bounds of the percentile range are the one bearing,
    the comparison [minBearing < maxBearing] fails, and the beam width
    is taken across 0 as 360. *)
Theorem identical_bearings_span_full_circle (b : Q) (n : nat) (p : Q)
    (Hn : 0 < n)
    (Hp : p = 0.68%Q \/ p = 0.95%Q \/ p = 0.99%Q) :
  exists r,
    findPercentileRange (replicate n b) p = Some r
    /\ minBearing r = b /\ maxBearing r = b
    /\ (beamWidth r == 360)%Q.
Proof.
  assert (0 < p < 1)%Q as Hp01.
  { destruct Hp as [-> | [-> | ->]]; split; reflexivity. }
  assert (0 < length (replicate n b)) as Hlen by (by rewrite length_replicate).
  destruct (window_in_range p _ Hp01 Hlen) as [Hsi Hei].
  assert (forall i, (0 <= i < Z.of_nat (length (replicate n b)))%Z ->
                    array_get (replicate n b) i = Some b) as Hget.
  { intros i Hi. unfold array_get. rewrite (proj2 (Z.ltb_ge i 0)) by lia.
    apply lookup_replicate_2. rewrite length_replicate in Hi. lia. }
  unfold findPercentileRange. cbv zeta. rewrite (Hget _ Hsi), (Hget _ Hei).
  assert (Qltb 180 (b - b) = false) as -> by (apply Qltb_ge; lra).
  assert (Qltb b b = false) as Hbb by (apply Qltb_ge; lra).
  eexists. split; [reflexivity|].
  cbn [minBearing maxBearing beamWidth]. rewrite Hbb.
  repeat split. ring.
Qed.

Lemma identical_bearings_span_full_circle_witness :
  exists r,
    findPercentileRange (replicate 3 90%Q) 0.95 = Some r
    /\ minBearing r = 90%Q /\ maxBearing r = 90%Q
    /\ (beamWidth r == 360)%Q.
Proof.
  apply (identical_bearings_span_full_circle 90 3 0.95); [lia | by right; left].
Defined.

(** ** The compass point of a bearing *)

Lemma Math_round_unique (q : Q) (k : Z) :
  (inject_Z k - 1 / 2 <= q < inject_Z k + 1 / 2)%Q -> Math_round q = k.
Proof.
  intros [Hl Hu]. unfold Math_round. apply Qfloor_unique.
  rewrite inject_Z_plus. change (inject_Z 1) with 1%Q.
  change (1 / 2)%Q with (1 # 2)%Q in *. lra.
Qed.

Lemma compass_defined (bearing : Q) :
  (0 <= bearing)%Q -> is_Some (getCompassDirection bearing).
Proof.
  intros Hb. unfold getCompassDirection.
  assert (0 <= Math_round (bearing / 22.5))%Z as Hr.
  { unfold Math_round. change 0%Z with (Qfloor 0). apply Qfloor_resp_le.
    assert (0 <= bearing / 22.5)%Q by (apply Qle_shift_div_l; lra).
    change (1 / 2)%Q with (1 # 2)%Q. lra. }
  pose proof (Z.rem_bound_pos _ 16 Hr ltac:(lia)) as Hrem.
  destruct (array_get_Some compassPoints
              (Z.rem (Math_round (bearing / 22.5)) 16)) as [point ->];
    [|done].
  change (length compassPoints) with 16. lia.
Qed.

(** X20.  [getCompassDirection] names the nearest of the sixteen compass
    points, the circle closing at 360: a bearing within 11.25 of
    [22.5 * k] (the lower end included, the upper end excluded) gets the
    point number [k mod 16], and is never [undefined]. *)
Theorem compass_direction_is_nearest_point (bearing : Q) (k : nat)
    (Hnear : (22.5 * inject_Z (Z.of_nat k) - 11.25 <= bearing
              < 22.5 * inject_Z (Z.of_nat k) + 11.25)%Q) :
  getCompassDirection bearing = compassPoints !! (k mod 16)
  /\ is_Some (getCompassDirection bearing).
Proof.
  assert (getCompassDirection bearing = compassPoints !! (k mod 16)) as Heq.
  { unfold getCompassDirection.
    assert (bearing / 22.5 * 22.5 == bearing)%Q as Hq by field.
    rewrite (Math_round_unique (bearing / 22.5) (Z.of_nat k)).
    2:{ set (q := (bearing / 22.5)%Q) in *.
        change (1 / 2)%Q with (1 # 2)%Q. lra. }
    rewrite Z.rem_mod_nonneg by lia.
    change 16%Z with (Z.of_nat 16). rewrite <- Nat2Z.inj_mod.
    unfold array_get. rewrite (proj2 (Z.ltb_ge _ 0)) by lia.
    by rewrite Nat2Z.id. }
  split; [done|]. rewrite Heq. apply lookup_lt_is_Some_2.
  change (length compassPoints) with 16. apply Nat.mod_upper_bound. lia.
Qed.

Lemma compass_direction_is_nearest_point_witness :
  getCompassDirection 350 = Some "N"
  /\ is_Some (getCompassDirection 350).
Proof.
  apply (compass_direction_is_nearest_point 350 16). split; by compute.
Defined.

(** ** Geodesy: symmetry and the meridian *)

Section GeodesyFurther.
Import Geodesy.
Local Open Scope R_scope.



(** X21.  The distance is symmetric: from the first point to the second
    it is what it is from the second to the first, [NaN] included. *)
Theorem distance_symmetric (lat1 lon1 lat2 lon2 : R) :
  calculateDistance lat1 lon1 lat2 lon2
  = calculateDistance lat2 lon2 lat1 lon1.
Proof.
  unfold calculateDistance. cbv zeta.
  replace (toRad (lat1 - lat2) / 2) with (- (toRad (lat2 - lat1) / 2))
    by (unfold toRad; lra).
  replace (toRad (lon1 - lon2) / 2) with (- (toRad (lon2 - lon1) / 2))
    by (unfold toRad; lra).
  rewrite !sin_neg.
  set (s1 := sin (toRad (lat2 - lat1) / 2)).
  set (s2 := sin (toRad (lon2 - lon1) / 2)).
  replace (- s1 * - s1 + cos (toRad lat2) * cos (toRad lat1) * - s2 * - s2)
    with (s1 * s1 + cos (toRad lat1) * cos (toRad lat2) * s2 * s2) by ring.
  reflexivity.
Qed.


End GeodesyFurther.

(** ** The bearing table *)

Lemma foldl_add_sum {A} (g : A -> nat) (l : list A) (a : nat) :
  foldl (fun sum x => sum + g x) a l = a + sum_list (g <$> l).
Proof.
  revert a. induction l as [|x l IH]; intros a; [simpl; lia|].
  cbn [foldl]. rewrite IH, fmap_cons. cbn [sum_list_with].
  unfold Datatypes.id. lia.
Qed.

Lemma lookup_keys_values `{Countable K} {A B} (m : gmap K A)
    (h : option A -> B) :
  (fun k => h (m !! k)) <$> (map_to_list m).*1
  = (fun v => h (Some v)) <$> (map_to_list m).*2.
Proof.
  rewrite <- !list_fmap_compose. apply Forall_fmap_ext, Forall_forall.
  intros [k v] Hin%elem_of_map_to_list. simpl. by rewrite Hin.
Qed.

Lemma sum_filter_positive {A} (g : A -> nat) (l : list A) :
  sum_list (g <$> List.filter (fun x => 0 <? g x) l) = sum_list (g <$> l).
Proof.
  induction l as [|x l IH]; [done|]. cbn [List.filter].
  destruct (0 <? g x) eqn:Hx; rewrite ?fmap_cons; cbn [sum_list_with];
    change (Datatypes.id (g x)) with (g x).
  - by rewrite IH.
  - apply Nat.ltb_ge in Hx. rewrite IH. lia.
Qed.

Lemma before_ascendingKeys (a b : Z) :
  before ascendingKeys a b <-> (a <= b)%Z.
Proof.
  unfold before, sorts_before, ascendingKeys. rewrite Qle_bool_iff.
  change 0%Q with (inject_Z 0). rewrite <- Zle_Qle. lia.
Qed.

Lemma sort_keys_sorted (l : list Z) :
  StronglySorted Z.le (sort_by ascendingKeys l).
Proof.
  eapply (StronglySorted_weaken (before ascendingKeys)).
  { intros x y. apply before_ascendingKeys. }
  apply (sort_by_sorted ascendingKeys (fun _ => True)).
  - intros x y _ _. rewrite !before_ascendingKeys. lia.
  - intros x y z _ _ _. rewrite !before_ascendingKeys. lia.
  - by apply Forall_true.
Qed.

Lemma StronglySorted_strict (l : list Z) :
  StronglySorted Z.le l -> NoDup l -> StronglySorted Z.lt l.
Proof.
  induction 1 as [|x l Hs IH Hx]; intros Hnd; [constructor|].
  apply NoDup_cons in Hnd as [Hnot Hnd].
  constructor; [by apply IH|]. apply Forall_forall. intros y Hy.
  eapply Forall_forall in Hx; [|exact Hy]. simpl in Hx.
  assert (x <> y) by (by intros ->). lia.
Qed.

Lemma StronglySorted_keep {A} (R : A -> A -> Prop) (f : A -> bool)
    (l : list A) :
  StronglySorted R l -> StronglySorted R (List.filter f l).
Proof.
  induction 1 as [|x l Hs IH Hx]; cbn [List.filter]; [constructor|].
  destruct (f x); [|done]. constructor; [done|].
  apply Forall_forall. intros y Hy.
  apply list_elem_of_In, filter_In in Hy as [Hy _].
  eapply Forall_forall in Hx; [done|]. by apply list_elem_of_In.
Qed.

Lemma tableBearings_ascending (m : gmap Z nat) :
  StronglySorted Z.lt (tableBearings m).
Proof.
  unfold tableBearings. apply StronglySorted_keep, StronglySorted_strict.
  - apply sort_keys_sorted.
  - rewrite sort_by_Permutation. apply NoDup_fst_map_to_list.
Qed.

Lemma elem_of_tableBearings (m : gmap Z nat) (b : Z) :
  b ∈ tableBearings m <-> exists n, m !! b = Some n /\ 0 < n.
Proof.
  unfold tableBearings.
  rewrite list_elem_of_In, filter_In, <- list_elem_of_In, sort_by_Permutation.
  rewrite list_elem_of_fmap. split.
  - intros [([k n] & -> & Hin%elem_of_map_to_list) Hpos]. simpl in *.
    rewrite Hin in Hpos. exists n. split; [done|]. by apply Nat.ltb_lt.
  - intros (n & Hn & Hpos). split.
    + exists (b, n). split; [done|]. by apply elem_of_map_to_list.
    + rewrite Hn. by apply Nat.ltb_lt.
Qed.

Lemma totalBearingCount_values (m : gmap Z nat) :
  totalBearingCount m = sum_list (map_to_list m).*2.
Proof.
  unfold totalBearingCount, tableBearings.
  rewrite foldl_add_sum, Nat.add_0_l.
  rewrite (sum_filter_positive (fun b => default 0 (m !! b))).
  rewrite (sum_list_Permutation
             _ ((fun b => default 0 (m !! b)) <$> (map_to_list m).*1)).
  2:{ by rewrite sort_by_Permutation. }
  rewrite (lookup_keys_values m (default 0)). cbn [default].
  by rewrite list_fmap_id.
Qed.

Lemma sum_counts_insert_fresh (m : gmap Z nat) (s : Z) (n : nat) :
  m !! s = None ->
  sum_list (map_to_list (<[s := n]> m)).*2 = n + sum_list (map_to_list m).*2.
Proof.
  intros Hnone.
  rewrite (sum_list_Permutation _ ((s, n) :: map_to_list m).*2); [done|].
  by rewrite (map_to_list_insert m s n Hnone).
Qed.

Lemma sum_counts_insert_over (m : gmap Z nat) (s : Z) (n0 n : nat) :
  m !! s = Some n0 ->
  sum_list (map_to_list (<[s := n]> m)).*2 + n0
  = n + sum_list (map_to_list m).*2.
Proof.
  intros Hsome.
  rewrite <- (insert_delete_eq m s n).
  rewrite <- (insert_delete_id m s n0 Hsome) at 2.
  rewrite !sum_counts_insert_fresh by apply lookup_delete_eq. lia.
Qed.

Lemma countSector_values (m : gmap Z nat) (s : Z) :
  sum_list (map_to_list (countSector m s)).*2
  = S (sum_list (map_to_list m).*2).
Proof.
  unfold countSector. destruct (m !! s) as [n|] eqn:Hs.
  - change (default 0 (Some n)) with n.
    pose proof (sum_counts_insert_over m s n (n + 1) Hs). lia.
  - change (default 0 None) with 0.
    rewrite sum_counts_insert_fresh by done. lia.
Qed.

Lemma sectorCounts_total (bearings : list Q) :
  sum_list (map_to_list (sectorCounts bearings)).*2 = length bearings.
Proof.
  induction bearings as [|b bearings IH] using rev_ind.
  { unfold sectorCounts. cbn [map foldl]. by rewrite map_to_list_empty. }
  rewrite sectorCounts_snoc, countSector_values, IH, length_app. simpl. lia.
Qed.

Lemma sectorCounts_lookup (bearings : list Q) (s : Z) :
  sectorCounts bearings !! s
  = match inSector s bearings with
    | 0 => None
    | S n => Some (S n)
    end.
Proof.
  induction bearings as [|b bearings IH] using rev_ind; [done|].
  rewrite sectorCounts_snoc. unfold countSector, inSector in *.
  rewrite List.filter_app, length_app. cbn [List.filter].
  destruct (decide (bearingSector b = s)) as [Heq|Hne].
  - rewrite bool_decide_true by done. subst s.
    rewrite lookup_insert_eq, IH. cbn [length].
    destruct (length _); simpl; f_equal; lia.
  - rewrite bool_decide_false, lookup_insert_ne by done.
    cbn [length]. by rewrite Nat.add_0_r.
Qed.

Lemma bearingSector_in_range (b : Q) :
  (0 <= b < 360)%Q ->
  exists k, (0 <= k < 24)%Z /\ bearingSector b = (15 * k)%Z.
Proof.
  intros [Hb0 Hb1]. exists (Qfloor (b / 15)). split; [|unfold bearingSector; lia].
  assert (0 <= b / 15)%Q as Hq0 by (apply Qle_shift_div_l; lra).
  assert (b / 15 < 24)%Q as Hq1 by (apply Qlt_shift_div_r; lra).
  split.
  - change 0%Z with (Qfloor 0). by apply Qfloor_resp_le.
  - pose proof (Qfloor_le (b / 15)) as Hf.
    rewrite Zlt_Qlt. change (inject_Z 24) with 24%Q. lra.
Qed.

(** X23.  The bearing table printed for an array of bearings of
    [[0, 360)] has one line for each sector that holds a bearing, in
    strictly ascending order; each line starts at a multiple of 15 below
    360, has a compass point (never [undefined]) and the positive number
    of bearings of its sector; and the total printed under the table is
    the number of bearings. *)
Theorem bearing_table_counts_every_bearing (bearings : list Q)
    (Hrange : Forall (fun b => 0 <= b < 360)%Q bearings) :
  let table := bearingTable (sectorCounts bearings) in
  StronglySorted Z.lt (row_bearing <$> table)
  /\ Forall (fun row =>
               (exists k, (0 <= k < 24)%Z /\ row_bearing row = (15 * k)%Z)
               /\ is_Some (row_direction row)
               /\ 0 < row_count row
               /\ row_count row = inSector (row_bearing row) bearings) table
  /\ (forall b, b ∈ bearings -> bearingSector b ∈ row_bearing <$> table)
  /\ totalBearingCount (sectorCounts bearings) = length bearings.
Proof.
  intros table.
  assert (row_bearing <$> table = tableBearings (sectorCounts bearings))
    as Hkeys.
  { unfold table, bearingTable.
    change (map ?f ?l) with (f <$> l). rewrite <- list_fmap_compose.
    apply list_fmap_id. }
  assert (forall s, s ∈ tableBearings (sectorCounts bearings) ->
            0 < inSector s bearings
            /\ sectorCounts bearings !! s = Some (inSector s bearings)
            /\ exists b, b ∈ bearings /\ bearingSector b = s) as Hrow.
  { intros s (n & Hn & Hpos)%elem_of_tableBearings.
    rewrite sectorCounts_lookup in Hn.
    destruct (inSector s bearings) as [|c] eqn:Hc; [done|].
    rewrite sectorCounts_lookup, Hc. split; [lia|]. split; [done|].
    unfold inSector in Hc.
    destruct (List.filter _ bearings) as [|b l] eqn:Hf; [done|].
    assert (In b (List.filter
                    (fun b => bool_decide (bearingSector b = s)) bearings))
      as Hin by (rewrite Hf; by left).
    apply filter_In in Hin as [Hin Hs]. exists b.
    split; [by apply list_elem_of_In | by apply bool_decide_eq_true in Hs]. }
  split; [rewrite Hkeys; apply tableBearings_ascending|].
  split.
  { unfold table, bearingTable. change (map ?f ?l) with (f <$> l).
    apply Forall_fmap, Forall_forall. intros s Hs.
    destruct (Hrow s Hs) as (Hpos & Hlookup & b & Hb & Hsector).
    unfold compose. cbn [row_bearing row_direction row_count].
    rewrite Hlookup. change (default 0 (Some ?n)) with n.
    eapply Forall_forall in Hrange; [|exact Hb].
    destruct (bearingSector_in_range b Hrange) as (k & Hk & Hbk).
    split; [exists k; by rewrite <- Hsector|].
    split; [|by split].
    apply compass_defined. rewrite <- Hsector, Hbk.
    assert (0 <= inject_Z (15 * k))%Q
      by (change 0%Q with (inject_Z 0); rewrite <- Zle_Qle; lia).
    lra. }
  split.
  { intros b Hb. rewrite Hkeys. apply elem_of_tableBearings.
    rewrite sectorCounts_lookup.
    assert (0 < inSector (bearingSector b) bearings) as Hpos.
    { unfold inSector.
      assert (In b (List.filter
                      (fun b' => bool_decide (bearingSector b' = bearingSector b))
                      bearings)) as Hin.
      { apply filter_In. split; [by apply list_elem_of_In|].
        by apply bool_decide_eq_true. }
      destruct (List.filter _ bearings); [done|simpl; lia]. }
    destruct (inSector (bearingSector b) bearings) as [|c]; [lia|].
    exists (S c). split; [done|lia]. }
  by rewrite totalBearingCount_values, sectorCounts_total.
Qed.

Lemma bearing_table_counts_every_bearing_witness :
  totalBearingCount (sectorCounts [350; 10; 12; 200]%Q) = 4.
Proof.
  apply (bearing_table_counts_every_bearing [350; 10; 12; 200]%Q).
  repeat (constructor; [split; by compute|]). constructor.
Defined.

Section TableOfMain.
Context `{Numerics}.

(** X24.  The total under the bearing table follows the minimum filter
    only: for accumulators whose sector counts are those of their
    bearings, it is the number of filtered bearings when a minimum
    distance is given and some bearing remains, and the number of all
    accumulated bearings otherwise, also when a maximum distance has
    filtered some of them out. *)
Theorem bearing_table_total_follows_minimum_only
    (minDistance maxDistance : number)
    (stats : gmap string Daily.t) (a : Accumulators)
    (Hcounts : bearingCounts a = sectorCounts (allBearings a)) :
  let r := statistics minDistance maxDistance stats a in
  totalBearingCount (rep_bearingCounts r)
  = if num_ltb (Fin 0) minDistance && (0 <? length (rep_filteredBearings r))
    then length (rep_filteredBearings r)
    else length (allBearings a).
Proof.
  intros r. unfold r. rewrite statistics_bearingCounts. cbv zeta. fold r.
  rewrite totalBearingCount_values.
  destruct (num_ltb (Fin 0) minDistance && (0 <? length (rep_filteredBearings r))).
  - apply sectorCounts_total.
  - rewrite Hcounts. apply sectorCounts_total.
Qed.
End TableOfMain.

Lemma bearing_table_total_follows_minimum_only_witness :
  let r := @statistics exampleNumerics (Fin 0) (Fin 2) ∅ threeSamples in
  totalBearingCount (rep_bearingCounts r) = 3
  /\ length (rep_filteredBearings r) = 2.
Proof.
  split; [|reflexivity].
  exact (bearing_table_total_follows_minimum_only
           (H := exampleNumerics) (Fin 0) (Fin 2) ∅ threeSamples eq_refl).
Defined.

(** ** The summary *)









Section Summary.
Context `{Numerics}.






End Summary.

(** ** The command line *)

Lemma announced_only_excluding (H : Numerics) (args : list string) (x : Output) :
  x ∈ announced args -> exists mmsiList, x = Excluding mmsiList.
Proof.
  unfold announced. destruct (mmsiListOf args) as [mmsiList|].
  - intros ->%list_elem_of_singleton. by eexists.
  - by intros ?%elem_of_nil.
Qed.

Lemma lines_only (mk : string -> Output) (lines : list string) (x : Output) :
  x ∈ map mk lines -> exists line, x = mk line.
Proof. intros (line & <- & _)%list_elem_of_In%in_map_iff. by exists line. Qed.

Section MainFurther.
Context `{Numerics}.

(** X26.  The map server is started only behind the statistics and only
    with a key: when [main] starts it, the port is the one [--display]
    gave and is not [0], [--apikey=] gave a non-empty key, the
    statistics have been printed, [main] returns normally, and the
    server is given the filtered positions and the beam statistics of
    that report. *)
Theorem map_server_needs_key_and_statistics (args : list string)
    (fs : string -> option Entry) (port : Z) (positions : list Position)
    (beamStats : option BeamWidthStats)
    (Hserved : MapServer port positions beamStats ∈ (main args fs).1) :
  displayPortOf args = Some port
  /\ port <> 0%Z
  /\ truthyString (apiKeyOf args) = true
  /\ (main args fs).2 = Fulfilled
  /\ exists r, Statistics r ∈ (main args fs).1
               /\ positions = rep_filteredPositions r
               /\ beamStats = rep_beamStats r.
Proof.
  unfold main in *. cbv zeta in *.
  destruct (filteredArgs args) as [|inputPath rest].
  { cbn [fst] in Hserved. apply elem_of_app in Hserved as [Ha|Hu].
    - apply announced_only_excluding in Ha as [l Hl]. discriminate.
    - apply lines_only in Hu as [l Hl]. discriminate. }
  destruct (truthyPort (displayPortOf args)
            && negb (truthyString (apiKeyOf args))) eqn:Hpre.
  { cbn [fst] in Hserved. apply elem_of_app in Hserved as [Ha|Hu].
    - apply announced_only_excluding in Ha as [l Hl]. discriminate.
    - apply lines_only in Hu as [l Hl]. discriminate. }
  destruct (fs inputPath) as [entry|].
  2:{ cbn [fst] in Hserved.
      apply announced_only_excluding in Hserved as [l Hl]. discriminate. }
  destruct entry as [name lines|name entries];
    cbv beta iota zeta in Hserved |- *; cbn [fst snd] in Hserved |- *;
    (apply elem_of_app in Hserved as [Ha|Hserved];
     [apply announced_only_excluding in Ha as [l Hl]; discriminate|];
     apply elem_of_app in Hserved as [Hs|Hserved];
     [apply list_elem_of_singleton in Hs; discriminate|];
     destruct (displayPortOf args) as [port'|] eqn:Hport;
     [|by apply elem_of_nil in Hserved];
     destruct (truthyPort (Some port')) eqn:Htruthy;
     [|by apply elem_of_nil in Hserved];
     apply list_elem_of_singleton in Hserved;
     injection Hserved as -> -> ->;
     split; [done|];
     split; [cbn [truthyPort] in Htruthy;
             apply negb_true_iff, Z.eqb_neq in Htruthy; done|];
     split; [cbn [andb] in Hpre; by apply negb_false_iff in Hpre|];
     split; [done|];
     eexists; split; [|split; reflexivity];
     apply elem_of_app; right; apply elem_of_app; left;
     by apply list_elem_of_singleton).
Qed.

(** X27.  [--max-distance=] is not among the options [main] takes out of
    the arguments, as [--min-distance=] is: given first, it is the input
    path.  When nothing of that name exists (and no map is asked for),
    the run ends with the exception of [fs.statSync] on the error stream
    and the exit status 0, whatever follows on the command line. *)
Theorem max_distance_flag_is_an_input_path (value : string)
    (rest : list string) (fs : string -> option Entry)
    (Hmissing : fs ("--max-distance=" ++ value)%string = None)
    (Hdisplay : truthyPort (displayPortOf rest) = false) :
  filteredArgs (("--max-distance=" ++ value)%string :: rest)
  = ("--max-distance=" ++ value)%string :: filteredArgs rest
  /\ filteredArgs (("--min-distance=" ++ value)%string :: rest)
     = filteredArgs rest
  /\ program (("--max-distance=" ++ value)%string :: rest) fs
     = {| console :=
            announced rest
            ++ [StderrException (ENOENT ("--max-distance=" ++ value)%string)];
          exitStatus := 0 |}.
Proof.
  split; [done|]. split; [done|].
  unfold program, main. cbv zeta.
  change (filteredArgs (("--max-distance=" ++ value)%string :: rest))
    with (("--max-distance=" ++ value)%string :: filteredArgs rest).
  change (displayPortOf (("--max-distance=" ++ value)%string :: rest))
    with (displayPortOf rest).
  change (announced (("--max-distance=" ++ value)%string :: rest))
    with (announced rest).
  by rewrite Hdisplay, Hmissing.
Qed.
End MainFurther.

Lemma map_server_needs_key_and_statistics_witness :
  @displayPortOf exampleNumerics ["data.json"; "--display"; "--apikey=K"]
  = Some 9001%Z
  /\ truthyString (apiKeyOf ["data.json"; "--display"; "--apikey=K"]) = true.
Proof.
  pose (fs := fun _ : string => Some (File "data.json" [])).
  pose (r := @statistics exampleNumerics (Fin 0) (Fin 0) ∅ noAccumulators).
  destruct (map_server_needs_key_and_statistics
              (H := exampleNumerics)
              ["data.json"; "--display"; "--apikey=K"] fs 9001
              (rep_filteredPositions r) (rep_beamStats r))
    as (Hport & _ & Hkey & _).
  - vm_compute. repeat constructor.
  - by split.
Defined.

Lemma max_distance_flag_is_an_input_path_witness :
  @program exampleNumerics ["--max-distance=5"; "data.json"] emptyFs
  = {| console := [StderrException (ENOENT "--max-distance=5")];
       exitStatus := 0 |}.
Proof.
  exact (proj2 (proj2 (max_distance_flag_is_an_input_path
                         (H := exampleNumerics) "5" ["data.json"] emptyFs
                         eq_refl eq_refl))).
Defined.

(** ** The beam statistics *)

Lemma findPercentileRange_defined (sortedBearings : list Q) (p : Q) :
  (0 < p < 1)%Q -> sortedBearings <> [] ->
  exists r, findPercentileRange sortedBearings p = Some r
            /\ percentile r = p.
Proof.
  intros Hp Hne.
  assert (0 < length sortedBearings) as Hlen.
  { destruct sortedBearings; [done|simpl; lia]. }
  destruct (window_in_range p _ Hp Hlen) as [Hsi Hei].
  destruct (array_get_Some sortedBearings _ Hsi) as [lo0 Hlo].
  destruct (array_get_Some sortedBearings _ Hei) as [hi0 Hhi].
  unfold findPercentileRange. cbv zeta. rewrite Hlo, Hhi.
  destruct (Qltb 180 (hi0 - lo0)); by eexists.
Qed.

Section BeamStatistics.
Context `{Numerics}.

(** X28.  The beam statistics exist when there is a bearing, and then
    they are complete: without bearings [calculateBeamWidth] returns
    [undefined]; with at least one it returns statistics whose count is the
    number of bearings, whose three percentile ranges are all defined
    (for 68, 95 and 99 percent), and whose farthest group holds at least
    one sample and at most all of them. *)
Theorem beam_statistics_are_complete (bearings distances : list Q)
    (Hnonempty : bearings <> []) :
  calculateBeamWidth [] distances = None
  /\ exists beam r68 r95 r99,
       calculateBeamWidth bearings distances = Some beam
       /\ totalCount beam = length bearings
       /\ percentile68 beam = Some r68 /\ percentile r68 = 0.68%Q
       /\ percentile95 beam = Some r95 /\ percentile r95 = 0.95%Q
       /\ percentile99 beam = Some r99 /\ percentile r99 = 0.99%Q
       /\ 1 <= md_count (maxDistance beam) <= length bearings.
Proof.
  split; [done|].
  assert (sort_by ascending bearings <> []) as Hsorted.
  { intros Hnil. apply (f_equal length) in Hnil.
    rewrite sort_by_length in Hnil. by destruct bearings. }
  destruct (findPercentileRange_defined (sort_by ascending bearings) 0.68)
    as (r68 & H68 & Hp68); [split; reflexivity|done|].
  destruct (findPercentileRange_defined (sort_by ascending bearings) 0.95)
    as (r95 & H95 & Hp95); [split; reflexivity|done|].
  destruct (findPercentileRange_defined (sort_by ascending bearings) 0.99)
    as (r99 & H99 & Hp99); [split; reflexivity|done|].
  destruct bearings as [|b0 bearings']; [done|].
  set (bearings := b0 :: bearings') in *.
  eexists _, r68, r95, r99. unfold calculateBeamWidth. cbv zeta.
  split; [reflexivity|].
  cbn [totalCount percentile68 percentile95 percentile99 maxDistance md_count].
  split; [apply sort_by_length|].
  repeat (split; [done|]).
  rewrite sort_by_length, top5PercentCount_div.
  assert (length bearings / 20 <= length bearings)
    by (apply Nat.Div0.div_le_upper_bound; lia).
  assert (1 <= length bearings) by (unfold bearings; simpl; lia).
  lia.
Qed.
End BeamStatistics.

Lemma beam_statistics_are_complete_witness :
  exists beam,
    @calculateBeamWidth exampleNumerics [10; 20; 30]%Q [3; 1; 2]%Q = Some beam
    /\ totalCount beam = 3.
Proof.
  destruct (proj2 (beam_statistics_are_complete
                     (H := exampleNumerics) [10; 20; 30]%Q [3; 1; 2]%Q
                     ltac:(discriminate)))
    as (beam & r68 & r95 & r99 & Hbeam & Hcount & _).
  by exists beam.
Defined.
